(** * RFM customer segmentation: the scoring pipeline of [rfm_analysis_app.py]

    A shallow embedding of the Streamlit script and of the pandas operations
    it calls ([groupby], [merge], [qcut], [astype], [corr]), followed by the
    properties of the pipeline.

    Modelling conventions.
    - Numbers are exact: integer columns are [Z], float columns are rationals
      [Q].  Rounding of IEEE doubles is not modelled.
    - A missing cell (NaN) of a derived column is [None].  The four input
      columns are read as present in every row.
    - Timestamps are nanoseconds since the epoch, as in pandas.
    - A Python exception is a value of [exn]; code that can raise returns a
      [result]. *)

From Stdlib Require Import String ZArith QArith Qround List Bool Lia Permutation Sorted.
From Stdlib Require Import Lqa.
From Stdlib Require OrderedTypeEx.
Import ListNotations.
Local Open Scope Z_scope.

(** ** pandas *)

Module Pandas.

(** The exceptions the modelled calls can raise. *)
Inductive exn : Type :=
| ValueError_bin_edges (name : string) (bins : list (option Q))
    (* qcut: "Bin edges must be unique: ..." for the Series called [name] *)
| ValueError_bin_labels (name : string)
    (* qcut: "Bin labels must be one fewer than the number of bin edges" *)
| ValueError_nan_to_int (name : string).
    (* astype(int): "Cannot convert float NaN to integer" *)

Inductive result (A : Type) : Type :=
| Ok (a : A)
| Raise (e : exn).
Arguments Ok {A} a.
Arguments Raise {A} e.

Definition bind {A B : Type} (c : result A) (k : A -> result B) : result B :=
  match c with
  | Ok a => k a
  | Raise e => Raise e
  end.

Notation "x <- c ;; k" := (bind c (fun x => k))
  (at level 61, c at next level, right associativity).

(** A named column. *)
Record Series (A : Type) : Type := mkSeries { name : string; values : list A }.
Arguments mkSeries {A} name values.
Arguments name {A} s.
Arguments values {A} s.

(** Sorting, by insertion; [leb] is the order of the column's type. *)
Section Sorting.
Context {A : Type} (leb : A -> A -> bool).

Fixpoint insert (x : A) (l : list A) : list A :=
  match l with
  | [] => [x]
  | y :: l' => if leb x y then x :: l else y :: insert x l'
  end.

Fixpoint isort (l : list A) : list A :=
  match l with
  | [] => []
  | x :: l' => insert x (isort l')
  end.

End Sorting.

Definition dropna {A : Type} (l : list (option A)) : list A :=
  flat_map (fun o => match o with Some a => [a] | None => [] end) l.

(** [np.linspace(0, 1, q + 1)]: the probabilities 0, 1/q, ..., q/q. *)
Definition linspace (q : nat) : list Q :=
  map (fun k => Z.of_nat k # Pos.of_nat q) (seq 0 (q + 1)).

(** Linear interpolation in the sorted values [s] at the virtual index [h]:
    between the neighbours [s[floor h]] and [s[floor h + 1]], the latter
    clipped to the last index. *)
Definition lerp_at (s : list Q) (h : Q) : Q :=
  let lo := Qfloor h in
  let gamma := (h - inject_Z lo)%Q in
  let a := nth (Z.to_nat lo) s 0%Q in
  let b := nth (Nat.min (Z.to_nat lo + 1) (length s - 1)) s 0%Q in
  (a + gamma * (b - a))%Q.

(** [Series.quantile(p)] with the default linear interpolation, over the
    sorted values [s]: the virtual index is [(n - 1) * p].  An empty column
    has quantile NaN. *)
Definition quantile (s : list Q) (p : Q) : option Q :=
  match s with
  | [] => None
  | _ => Some (lerp_at s (inject_Z (Z.of_nat (length s) - 1) * p))
  end.

(** Equality of float cells as [algos.unique] sees it: NaNs are one value. *)
Definition cell_eqb (a b : option Q) : bool :=
  match a, b with
  | None, None => true
  | Some x, Some y => Qeq_bool x y
  | _, _ => false
  end.

(** [algos.unique]: first occurrences, in order. *)
Fixpoint unique (l : list (option Q)) : list (option Q) :=
  match l with
  | [] => []
  | x :: l' => x :: filter (fun y => negb (cell_eqb x y)) (unique l')
  end.

(** [bins.searchsorted(x, side="left")]: the first index [i] with
    [x <= bins[i]], or [len(bins)] when there is none. *)
Fixpoint searchsorted_left (bins : list Q) (x : Q) : nat :=
  match bins with
  | [] => 0
  | b :: bins' => if Qle_bool x b then 0 else S (searchsorted_left bins' x)
  end.

(** The bin number of [x] in [_bins_to_cuts] with [include_lowest=True]:
    a value equal to the first edge goes to bin 1, and a value outside the
    edges has no bin (NaN). *)
Definition bin_id (bins : list Q) (x : Q) : option nat :=
  let ids := searchsorted_left bins x in
  let ids := match bins with
             | b0 :: _ => if Qeq_bool x b0 then 1%nat else ids
             | [] => ids
             end in
  if (ids =? length bins)%nat || (ids =? 0)%nat then None else Some ids.

(** [take_nd(labels, ids - 1)]. *)
Definition take_label {L : Type} (labels : list L) (bins : list Q) (x : option Q)
  : option L :=
  match x with
  | None => None
  | Some v =>
      match bin_id bins v with
      | None => None
      | Some ids => nth_error labels (ids - 1)
      end
  end.

(** The bin edges [qcut] computes: the quantiles of the non-missing values. *)
Definition quantile_edges (x : list (option Q)) (q : nat) : list (option Q) :=
  map (quantile (isort Qle_bool (dropna x))) (linspace q).

(** [pd.qcut(x, q, labels=labels)] with the default [duplicates="raise"]. *)
Definition qcut {L : Type} (x : Series (option Q)) (q : nat) (labels : list L)
  : result (list (option L)) :=
  let bins := quantile_edges (values x) q in
  if (length (unique bins) <? length bins)%nat && negb (length bins =? 2)%nat
  then Raise (ValueError_bin_edges (name x) bins)
  else if negb (length labels =? length bins - 1)%nat
  then Raise (ValueError_bin_labels (name x))
  else Ok (map (take_label labels (dropna bins)) (values x)).

(** [.astype(int)] on a column that may hold NaN. *)
Fixpoint astype_int (name : string) (l : list (option Z)) : result (list Z) :=
  match l with
  | [] => Ok []
  | None :: _ => Raise (ValueError_nan_to_int name)
  | Some z :: l' => l'' <- astype_int name l' ;; Ok (z :: l'')
  end.

(** [groupby(key)]: the distinct keys in ascending order, each with the
    aggregate [agg] of its group (the rows carrying that key, in row order). *)
Definition group_keys {R : Type} (key : R -> Z) (rows : list R) : list Z :=
  isort Z.leb (nodup Z.eq_dec (map key rows)).

Definition groupby {R V : Type} (key : R -> Z) (agg : list R -> V) (rows : list R)
  : list (Z * V) :=
  map (fun k => (k, agg (filter (fun r => key r =? k) rows))) (group_keys key rows).

(** [left.merge(right, on=key, how="left")]: every left row, in order, paired
    with each right row of the same key, or with NaN when there is none. *)
Definition merge_left {R V : Type} (key : R -> Z) (left : list R) (right : list (Z * V))
  : list (R * option V) :=
  flat_map (fun r =>
              match filter (fun kv => fst kv =? key r) right with
              | [] => [(r, None)]
              | ms => map (fun kv => (r, Some (snd kv))) ms
              end) left.

(** [count()] and [sum()] of a group's column. *)
Definition count {R : Type} (g : list R) : Z := Z.of_nat (length g).

Definition sum (l : list Q) : Q := fold_left Qplus l 0%Q.

(** An entry of a Pearson correlation matrix.  The coefficient
    [covxy / sqrt (ssqdm_x * ssqdm_y)] is kept as its two rational parts. *)
Record Pearson : Type := mkPearson { covxy : Q; ssqdm : Q }.

Definition mean (l : list Q) : Q := (sum l / inject_Z (Z.of_nat (length l)))%Q.

(** One entry of [DataFrame.corr()] (method pearson, [min_periods=1]): NaN
    when there is no observation or when a column has no variance. *)
Definition corr_entry (xs ys : list Q) : option Pearson :=
  let nobs := length xs in
  if (nobs <? 1)%nat then None
  else
    let mx := mean xs in
    let my := mean ys in
    let dx := map (fun x => (x - mx)%Q) xs in
    let dy := map (fun y => (y - my)%Q) ys in
    let cov := sum (map (fun p => (fst p * snd p)%Q) (combine dx dy)) in
    let ssx := sum (map (fun d => (d * d)%Q) dx) in
    let ssy := sum (map (fun d => (d * d)%Q) dy) in
    if Qeq_bool (ssx * ssy) 0 then None
    else Some (mkPearson cov (ssx * ssy)).

Definition corr (cols : list (list Q)) : list (list (option Pearson)) :=
  map (fun xs => map (fun ys => corr_entry xs ys) cols) cols.

End Pandas.

(** ** The script *)

Module RFM.
Import Pandas.

(** A row of the uploaded CSV, [PurchaseDate] already parsed by
    [pd.to_datetime]. *)
Record Txn : Type := mkTxn {
  CustomerID : Z;
  OrderID : Z;
  TransactionAmount : Q;
  PurchaseDate : Z
}.

(** A row after the two merges (line 37). *)
Record Measured : Type := mkMeasured {
  txn : Txn;
  Recency : Z;
  Frequency : option Z;
  MonetaryValue : option Q
}.

(** A row of the segmented table (line 62). *)
Record Scored : Type := mkScored {
  measured : Measured;
  RecencyScore : Z;
  FrequencyScore : Z;
  MonetaryScore : Z;
  RFM_Score : Z;
  Value_Segment : option string;
  RFM_Customer_Segments : string
}.

Definition ns_per_day : Z := 86400000000000.

(** [(now - PurchaseDate).dt.days]: whole days, rounded down. *)
Definition days_between (now date : Z) : Z := (now - date) / ns_per_day.

(** Lines 27-37: Recency per row, Frequency and MonetaryValue per customer,
    merged back on CustomerID. *)
Definition derive_measures (now : Z) (data : list Txn) : list Measured :=
  let data := map (fun t => (t, days_between now (PurchaseDate t))) data in
  let frequency_data :=
    groupby (fun r => CustomerID (fst r))
            (fun g => count (map (fun r => OrderID (fst r)) g)) data in
  let monetary_data :=
    groupby (fun r => CustomerID (fst r))
            (fun g => sum (map (fun r => TransactionAmount (fst r)) g)) data in
  let data := merge_left (fun r => CustomerID (fst r)) data frequency_data in
  let data := merge_left (fun r => CustomerID (fst (fst r))) data monetary_data in
  map (fun r => mkMeasured (fst (fst (fst r))) (snd (fst (fst r))) (snd (fst r)) (snd r))
      data.

Definition recency_scores : list Z := [5; 4; 3; 2; 1].
Definition frequency_scores : list Z := [1; 2; 3; 4; 5].
Definition monetary_scores : list Z := [1; 2; 3; 4; 5].
Definition segment_labels : list string :=
  ["Low-Value"; "Mid-Value"; "High-Value"]%string.

(** The columns handed to [qcut]. *)
Definition Recency_col (data : list Measured) : Series (option Q) :=
  mkSeries "Recency" (map (fun d => Some (inject_Z (Recency d))) data).

Definition Frequency_col (data : list Measured) : Series (option Q) :=
  mkSeries "Frequency" (map (fun d => option_map inject_Z (Frequency d)) data).

Definition MonetaryValue_col (data : list Measured) : Series (option Q) :=
  mkSeries "MonetaryValue" (map MonetaryValue data).

Definition RFM_Score_col (rfm : list Z) : Series (option Q) :=
  mkSeries "RFM_Score" (map (fun s => Some (inject_Z s)) rfm).

(** [data.loc[mask, column] = value] on one column. *)
Definition loc_assign (mask : list bool) (value : string) (column : list string)
  : list string :=
  map (fun bc : bool * string => if fst bc then value else snd bc) (combine mask column).

(** Lines 57-62: the five masked assignments, in order. *)
Definition segment_rules : list ((Z -> bool) * string) :=
  [ ((fun s => 9 <=? s), "Champions"%string);
    ((fun s => (6 <=? s) && (s <? 9)), "Potential Loyalists"%string);
    ((fun s => (5 <=? s) && (s <? 6)), "At Risk Customers"%string);
    ((fun s => (4 <=? s) && (s <? 5)), "Can't Lose"%string);
    ((fun s => s <? 4), "Lost"%string) ].

Definition assign_segments (rfm : list Z) : list string :=
  fold_left (fun column rule => loc_assign (map (fst rule) rfm) (snd rule) column)
            segment_rules
            (map (fun _ => EmptyString) rfm).

(** Lines 45-62: the three score columns, their sum, and the two
    segmentations. *)
Definition score (data : list Measured) : result (list Scored) :=
  r <- (c <- qcut (Recency_col data) 5 recency_scores ;;
        astype_int "RecencyScore" c) ;;
  f <- (c <- qcut (Frequency_col data) 5 frequency_scores ;;
        astype_int "FrequencyScore" c) ;;
  m <- (c <- qcut (MonetaryValue_col data) 5 monetary_scores ;;
        astype_int "MonetaryScore" c) ;;
  let rfm := map (fun x => fst (fst x) + snd (fst x) + snd x) (combine (combine r f) m) in
  v <- qcut (RFM_Score_col rfm) 3 segment_labels ;;
  let c := assign_segments rfm in
  Ok (map (fun x =>
             mkScored (fst (fst (fst (fst (fst (fst x))))))
                      (snd (fst (fst (fst (fst (fst x))))))
                      (snd (fst (fst (fst (fst x)))))
                      (snd (fst (fst (fst x))))
                      (snd (fst (fst x)))
                      (snd (fst x))
                      (snd x))
          (combine (combine (combine (combine (combine (combine data r) f) m) rfm) v) c)).

(** Lines 20-62 for an uploaded table, at the instant [now] read from the
    clock on line 27. *)
Definition pipeline (now : Z) (data : list Txn) : result (list Scored) :=
  score (derive_measures now data).

(** Line 88. *)
Definition champions_segment (data : list Scored) : list Scored :=
  filter (fun r => String.eqb (RFM_Customer_Segments r) "Champions") data.

(** Line 100: the correlation matrix of the three score columns. *)
Definition correlation_matrix (champions : list Scored)
  : list (list (option Pearson)) :=
  corr [ map (fun r => inject_Z (RecencyScore r)) champions;
         map (fun r => inject_Z (FrequencyScore r)) champions;
         map (fun r => inject_Z (MonetaryScore r)) champions ].





(** *** Row-wise reading of the columns

    The script works on whole columns; the definitions below give the value
    one row receives, for stating properties of rows. *)

(** The rows of the upload that belong to customer [c]. *)
Definition customer_rows (data : list Txn) (c : Z) : list Txn :=
  filter (fun t => CustomerID t =? c) data.

(** The number of different OrderID values among the rows of customer [c]. *)
Definition distinct_orders (data : list Txn) (c : Z) : Z :=
  Z.of_nat (length (nodup Z.eq_dec (map OrderID (customer_rows data c)))).

(** The rules of lines 58-62 whose mask holds for the score [s]. *)
Definition matching_rules (s : Z) : list ((Z -> bool) * string) :=
  filter (fun rule : (Z -> bool) * string => fst rule s) segment_rules.

(** The cell a row with score [s] ends with after the five assignments. *)
Definition segment_of (s : Z) : string :=
  fold_left (fun (cell : string) (rule : (Z -> bool) * string) =>
               if fst rule s then snd rule else cell)
            segment_rules EmptyString.

Definition label_or (d : Z) (o : option Z) : Z :=
  match o with Some z => z | None => d end.

(** The bin edges of the four [qcut] calls of [score]. *)
Definition Recency_edges (data : list Measured) : list Q :=
  dropna (quantile_edges (values (Recency_col data)) 5).

Definition Frequency_edges (data : list Measured) : list Q :=
  dropna (quantile_edges (values (Frequency_col data)) 5).

Definition MonetaryValue_edges (data : list Measured) : list Q :=
  dropna (quantile_edges (values (MonetaryValue_col data)) 5).

Definition RFM_Score_edges (rfm : list Z) : list Q :=
  dropna (quantile_edges (values (RFM_Score_col rfm)) 3).

(** The labels the three measure cuts give the row [d] of the table [data]. *)
Definition Recency_label (data : list Measured) (d : Measured) : option Z :=
  take_label recency_scores (Recency_edges data) (Some (inject_Z (Recency d))).

Definition Frequency_label (data : list Measured) (d : Measured) : option Z :=
  take_label frequency_scores (Frequency_edges data) (option_map inject_Z (Frequency d)).

Definition MonetaryValue_label (data : list Measured) (d : Measured) : option Z :=
  take_label monetary_scores (MonetaryValue_edges data) (MonetaryValue d).

Definition rfm_of (data : list Measured) (d : Measured) : Z :=
  label_or 0 (Recency_label data d) + label_or 0 (Frequency_label data d)
  + label_or 0 (MonetaryValue_label data d).

(** The segmented row of [d]. *)
Definition score_row (data : list Measured) (d : Measured) : Scored :=
  mkScored d
           (label_or 0 (Recency_label data d))
           (label_or 0 (Frequency_label data d))
           (label_or 0 (MonetaryValue_label data d))
           (rfm_of data d)
           (take_label segment_labels (RFM_Score_edges (map (rfm_of data) data))
                       (Some (inject_Z (rfm_of data d))))
           (segment_of (rfm_of data d)).

(** Whether [qcut] rejects the edges [bins] of a cut into more than one bin. *)
Definition duplicate_edges (bins : list (option Q)) : bool :=
  (length (unique bins) <? length bins)%nat.

(** A merged table without missing cells. *)
Definition complete (data : list Measured) : Prop :=
  Forall (fun d => Frequency d <> None /\ MonetaryValue d <> None) data.

(** The correlation matrix whose nine entries are NaN. *)
Definition nan_matrix : list (list (option Pearson)) :=
  [ [None; None; None]; [None; None; None]; [None; None; None] ].

End RFM.

(** ** Sample uploads *)

Module Sample.
Import Pandas RFM.

(** Midnight of the [d]-th day after the epoch. *)
Definition on_day (d : Z) : Z := d * ns_per_day.

(** The clock reading of the sample runs: 09:30 on day 19875. *)
Definition now : Z := on_day 19875 + 34200000000000.

(** Seven customers, seventeen purchases. *)
Definition shop_a : list Txn :=
  [ mkTxn 1 1001 2%Q (on_day 19873);
    mkTxn 2 1002 1%Q (on_day 19865);
    mkTxn 2 1003 40%Q (on_day 19870);
    mkTxn 3 1004 40%Q (on_day 19874);
    mkTxn 3 1005 5%Q (on_day 19870);
    mkTxn 4 1006 20%Q (on_day 19865);
    mkTxn 4 1007 20%Q (on_day 19868);
    mkTxn 5 1008 5%Q (on_day 19868);
    mkTxn 5 1009 40%Q (on_day 19863);
    mkTxn 5 1010 5%Q (on_day 19865);
    mkTxn 6 1011 3%Q (on_day 19872);
    mkTxn 6 1012 1%Q (on_day 19873);
    mkTxn 6 1013 5%Q (on_day 19872);
    mkTxn 7 1014 3%Q (on_day 19871);
    mkTxn 7 1015 5%Q (on_day 19864);
    mkTxn 7 1016 40%Q (on_day 19864);
    mkTxn 7 1017 5%Q (on_day 19870) ].

(** The same customers with other dates and amounts. *)
Definition shop_b : list Txn :=
  [ mkTxn 1 2001 5%Q (on_day 19869);
    mkTxn 2 2002 20%Q (on_day 19865);
    mkTxn 2 2003 5%Q (on_day 19872);
    mkTxn 3 2004 40%Q (on_day 19869);
    mkTxn 3 2005 1%Q (on_day 19869);
    mkTxn 4 2006 5%Q (on_day 19871);
    mkTxn 4 2007 40%Q (on_day 19869);
    mkTxn 5 2008 3%Q (on_day 19864);
    mkTxn 5 2009 1%Q (on_day 19871);
    mkTxn 5 2010 10%Q (on_day 19870);
    mkTxn 6 2011 5%Q (on_day 19865);
    mkTxn 6 2012 40%Q (on_day 19874);
    mkTxn 6 2013 1%Q (on_day 19863);
    mkTxn 7 2014 20%Q (on_day 19866);
    mkTxn 7 2015 10%Q (on_day 19867);
    mkTxn 7 2016 2%Q (on_day 19873);
    mkTxn 7 2017 2%Q (on_day 19867) ].

(** [shop_a] with every customer spending 12 in total. *)
Definition shop_flat : list Txn :=
  [ mkTxn 1 3001 12%Q (on_day 19873);
    mkTxn 2 3002 6%Q (on_day 19865);
    mkTxn 2 3003 6%Q (on_day 19870);
    mkTxn 3 3004 6%Q (on_day 19874);
    mkTxn 3 3005 6%Q (on_day 19870);
    mkTxn 4 3006 6%Q (on_day 19865);
    mkTxn 4 3007 6%Q (on_day 19868);
    mkTxn 5 3008 4%Q (on_day 19868);
    mkTxn 5 3009 4%Q (on_day 19863);
    mkTxn 5 3010 4%Q (on_day 19865);
    mkTxn 6 3011 4%Q (on_day 19872);
    mkTxn 6 3012 4%Q (on_day 19873);
    mkTxn 6 3013 4%Q (on_day 19872);
    mkTxn 7 3014 3%Q (on_day 19871);
    mkTxn 7 3015 3%Q (on_day 19864);
    mkTxn 7 3016 3%Q (on_day 19864);
    mkTxn 7 3017 3%Q (on_day 19870) ].

(** One customer, one order recorded on two rows. *)
Definition shop_dup : list Txn :=
  [ mkTxn 1 100 10%Q (on_day 19870);
    mkTxn 1 100 15%Q (on_day 19870) ].


(** The table of the run on [data] at [now], empty when the run fails. *)
Definition run_of (data : list Txn) : list Scored :=
  match pipeline now data with Ok out => out | Raise _ => [] end.

(** The default row for [nth]. *)
Definition no_row : Scored :=
  mkScored (mkMeasured (mkTxn 0 0 0 0) 0 None None) 0 0 0 0 None EmptyString.

End Sample.
(** ** The aggregate tables and the per-segment view *)

Module Views.
Import Pandas RFM.

(** Lines 30-31: one row per customer, with the number of its OrderID cells. *)
Definition frequency_data (data : list Txn) : list (Z * Z) :=
  groupby CustomerID (fun g => count (map OrderID g)) data.

(** Lines 32-33: one row per customer, with the total of its amounts. *)
Definition monetary_data (data : list Txn) : list (Z * Q) :=
  groupby CustomerID (fun g => sum (map TransactionAmount g)) data.

(** The group keys of a [groupby] on a text column: the distinct values in
    ascending order of their characters. *)
Definition group_names (rows : list Scored) : list string :=
  isort String.leb (nodup string_dec (map RFM_Customer_Segments rows)).

(** The rows of one segment. *)
Definition segment_rows (data : list Scored) (k : string) : list Scored :=
  filter (fun r => String.eqb (RFM_Customer_Segments r) k) data.

(** The three score columns of a table, as the floats [mean] and [corr]
    work on. *)
Definition RecencyScore_values (rows : list Scored) : list Q :=
  map (fun r => inject_Z (RecencyScore r)) rows.

Definition FrequencyScore_values (rows : list Scored) : list Q :=
  map (fun r => inject_Z (FrequencyScore r)) rows.

Definition MonetaryScore_values (rows : list Scored) : list Q :=
  map (fun r => inject_Z (MonetaryScore r)) rows.

(** A row of [segment_scores]. *)
Record SegmentMeans : Type := mkSegmentMeans {
  segment : string;
  mean_RecencyScore : Q;
  mean_FrequencyScore : Q;
  mean_MonetaryScore : Q
}.

(** Line 111: per segment, the mean of each of the three scores. *)
Definition segment_scores (data : list Scored) : list SegmentMeans :=
  map (fun k => mkSegmentMeans k
                  (mean (RecencyScore_values (segment_rows data k)))
                  (mean (FrequencyScore_values (segment_rows data k)))
                  (mean (MonetaryScore_values (segment_rows data k))))
      (group_names data).

(** The value of a defined correlation entry is 1: its covariance part is
    positive and its square is the product of the two variances. *)
Definition is_one (p : Pearson) : Prop :=
  (0 < covxy p)%Q /\ (covxy p * covxy p == ssqdm p)%Q.

(** A constant column. *)
Definition constant (l : list (option Q)) : Prop :=
  forall x y, In (Some x) l -> In (Some y) l -> (x == y)%Q.

(** Smallest and largest value of a column. *)
Definition is_min (l : list (option Q)) (v : Q) : Prop :=
  In (Some v) l /\ forall x, In (Some x) l -> (v <= x)%Q.

Definition is_max (l : list (option Q)) (v : Q) : Prop :=
  In (Some v) l /\ forall x, In (Some x) l -> (x <= v)%Q.

End Views.

(** ** More sample uploads *)

Module Uploads.
Import Pandas RFM Sample.

(** One purchase. *)
Definition one_purchase : list Txn :=
  [ mkTxn 1 100 10%Q (on_day 19870) ].

(** Three customers who bought once each, on different days. *)
Definition single_orders : list Txn :=
  [ mkTxn 1 100 10%Q (on_day 19870);
    mkTxn 2 101 25%Q (on_day 19860);
    mkTxn 3 102 40%Q (on_day 19850) ].

(** The five segments from the lowest scores to the highest, and the place
    of a segment among them. *)
Definition segments_ascending : list string :=
  ["Lost"; "Can't Lose"; "At Risk Customers"; "Potential Loyalists"; "Champions"]%string.

Fixpoint index_of (k : string) (l : list string) : nat :=
  match l with
  | [] => 0
  | x :: l' => if String.eqb k x then 0 else S (index_of k l')
  end.

Definition segment_rank (k : string) : nat := index_of k segments_ascending.

(** Two correlation entries with the same value. *)
Definition same_entry (p q : option Pearson) : Prop :=
  match p, q with
  | None, None => True
  | Some p, Some q => (covxy p == covxy q)%Q /\ (ssqdm p == ssqdm q)%Q
  | _, _ => False
  end.

(** What the scoring reads of an uploaded row at the instant [now]: its
    customer, its amount and its age in whole days. *)
Definition read_of (now : Z) (t : Txn) : Z * Q * Z :=
  (CustomerID t, TransactionAmount t, days_between now (PurchaseDate t)).

(** The three measures of a merged row. *)
Definition measure_cells (d : Measured) : Z * option Z * option Q :=
  (Recency d, Frequency d, MonetaryValue d).

(** The derived cells of a segmented row. *)
Definition derived_cells (r : Scored)
  : Z * option Z * option Q * Z * Z * Z * Z * option string * string :=
  (Recency (measured r), Frequency (measured r), MonetaryValue (measured r),
   RecencyScore r, FrequencyScore r, MonetaryScore r, RFM_Score r,
   Value_Segment r, RFM_Customer_Segments r).

(** The outcome of a run, with each row reduced to its derived cells. *)
Definition derived_outcome (now : Z) (data : list Txn)
  : result (list (Z * option Z * option Q * Z * Z * Z * Z * option string * string)) :=
  match pipeline now data with
  | Ok out => Ok (map derived_cells out)
  | Raise e => Raise e
  end.

(** [shop_a] with other order numbers and every purchase made three hours
    later in its day. *)
Definition shop_a_renumbered : list Txn :=
  map (fun t => mkTxn (CustomerID t) (OrderID t + 5000) (TransactionAmount t)
                      (PurchaseDate t + 10800000000000))
      shop_a.

(** The default row of the per-segment view, for [nth]. *)
Definition no_means : Views.SegmentMeans := Views.mkSegmentMeans EmptyString 0 0 0.

End Uploads.

Import Pandas RFM.

(** ** Lists *)

Section ListFacts.
Context {A B C : Type}.

Lemma combine_map_map (f : A -> B) (g : A -> C) (l : list A) :
  combine (map f l) (map g l) = map (fun x => (f x, g x)) l.
Proof.
  induction l as [|x l IH]; simpl; [reflexivity | now rewrite IH].
Qed.

Lemma combine_map_r (g : A -> C) (l : list A) :
  combine l (map g l) = map (fun x => (x, g x)) l.
Proof.
  induction l as [|x l IH]; simpl; [reflexivity | now rewrite IH].
Qed.

Lemma map_Some_inv (f : A -> option B) (d : B) (l : list A) (l' : list B) :
  map Some l' = map f l ->
  l' = map (fun x => match f x with Some y => y | None => d end) l
  /\ Forall (fun x => f x <> None) l.
Proof.
  revert l'; induction l as [|x l IH]; intros [|y l'] H; simpl in H; try discriminate.
  - split; [reflexivity | constructor].
  - injection H as Hy Hl. destruct (IH _ Hl) as [-> HF].
    split.
    + simpl. now rewrite <- Hy.
    + constructor; [congruence | exact HF].
Qed.

End ListFacts.

(** ** Sorting *)

Section SortingFacts.
Context {A : Type} (leb : A -> A -> bool).
Hypothesis leb_total : forall x y, leb x y = true \/ leb y x = true.
Hypothesis leb_trans : forall x y z, leb x y = true -> leb y z = true -> leb x z = true.

Let le (x y : A) : Prop := leb x y = true.

Lemma insert_perm (x : A) (l : list A) : Permutation (insert leb x l) (x :: l).
Proof.
  induction l as [|y l IH]; simpl; [apply Permutation_refl |].
  destruct (leb x y); [apply Permutation_refl |].
  eapply perm_trans; [apply perm_skip, IH | apply perm_swap].
Qed.

Lemma isort_perm (l : list A) : Permutation (isort leb l) l.
Proof.
  induction l as [|x l IH]; simpl; [constructor |].
  eapply perm_trans; [apply insert_perm | now apply perm_skip].
Qed.

Lemma insert_sorted (x : A) (l : list A) :
  StronglySorted le l -> StronglySorted le (insert leb x l).
Proof.
  induction 1 as [|y l Hs IH Hy]; simpl.
  - repeat constructor.
  - destruct (leb x y) eqn:Hxy.
    + constructor; [now constructor |].
      constructor; [exact Hxy |].
      eapply Forall_impl; [| exact Hy]. intros z Hz. unfold le in *. eauto.
    + constructor; [exact IH |].
      apply Forall_forall. intros z Hz.
      apply (Permutation_in _ (insert_perm x l)) in Hz.
      destruct Hz as [<- | Hz].
      * destruct (leb_total x y) as [H' | H']; [congruence | exact H'].
      * rewrite Forall_forall in Hy. now apply Hy.
Qed.

Lemma isort_sorted (l : list A) : StronglySorted le (isort leb l).
Proof.
  induction l as [|x l IH]; simpl; [constructor | now apply insert_sorted].
Qed.

Lemma sorted_first (s : list A) (d x : A) :
  StronglySorted le s -> In x s -> le (nth 0 s d) x.
Proof.
  intros Hs Hx. destruct s as [|a s]; [contradiction |].
  simpl. inversion Hs as [|? ? _ Ha]; subst.
  destruct Hx as [<- | Hx].
  - destruct (leb_total a a); assumption.
  - rewrite Forall_forall in Ha. now apply Ha.
Qed.

Lemma sorted_last (s : list A) (d x : A) :
  StronglySorted le s -> In x s -> le x (nth (length s - 1) s d).
Proof.
  induction 1 as [|a s Hs IH Ha]; intros Hx; [contradiction |].
  destruct s as [|b s].
  - destruct Hx as [<- | []]. simpl. destruct (leb_total a a); assumption.
  - assert (Hn : nth (length (a :: b :: s) - 1) (a :: b :: s) d
                 = nth (length (b :: s) - 1) (b :: s) d).
    { simpl. now rewrite Nat.sub_0_r. }
    rewrite Hn. destruct Hx as [<- | Hx].
    + rewrite Forall_forall in Ha. apply Ha.
      apply nth_In. simpl. lia.
    + now apply IH.
Qed.

End SortingFacts.

(** ** Quantile edges and bins *)

Lemma Qle_bool_total (x y : Q) : Qle_bool x y = true \/ Qle_bool y x = true.
Proof.
  rewrite !Qle_bool_iff. destruct (Qlt_le_dec x y) as [H | H]; [left | right]; auto.
  now apply Qlt_le_weak.
Qed.

Lemma Qle_bool_trans (x y z : Q) :
  Qle_bool x y = true -> Qle_bool y z = true -> Qle_bool x z = true.
Proof. rewrite !Qle_bool_iff. apply Qle_trans. Qed.

Lemma In_dropna {A : Type} (l : list (option A)) (a : A) :
  In a (dropna l) <-> In (Some a) l.
Proof.
  unfold dropna. rewrite in_flat_map. split.
  - intros [[b|] [Hin Hb]]; simpl in Hb; [| contradiction].
    destruct Hb as [-> | []]. exact Hin.
  - intros H. exists (Some a). split; [exact H | now left].
Qed.

(** Every value of a column lies between the first and the last element of
    the sorted column. *)
Lemma sorted_column_bounds (x : list (option Q)) (v : Q) :
  In (Some v) x ->
  let s := isort Qle_bool (dropna x) in
  (nth 0 s 0 <= v)%Q /\ (v <= nth (length s - 1) s 0)%Q.
Proof.
  intros Hv s.
  assert (Hs : In v s).
  { apply (Permutation_in _ (Permutation_sym (isort_perm Qle_bool (dropna x)))).
    now apply In_dropna. }
  pose proof (isort_sorted Qle_bool Qle_bool_total Qle_bool_trans (dropna x)) as Hsorted.
  split; apply Qle_bool_iff.
  - exact (sorted_first Qle_bool Qle_bool_total s 0%Q v Hsorted Hs).
  - exact (sorted_last Qle_bool Qle_bool_total s 0%Q v Hsorted Hs).
Qed.

Lemma quantile_Some (s : list Q) (p : Q) :
  s <> [] -> exists e, quantile s p = Some e.
Proof. destruct s; [congruence | intros _; eexists; reflexivity]. Qed.

(** At a whole virtual index the interpolation returns that element. *)
Lemma lerp_at_whole (s : list Q) (h : Q) (k : Z) :
  (h == inject_Z k)%Q -> (lerp_at s h == nth (Z.to_nat k) s 0)%Q.
Proof.
  intros Hh. unfold lerp_at.
  assert (Hfl : Qfloor h = k) by (rewrite Hh; apply Qfloor_Z).
  rewrite Hfl, Hh. ring.
Qed.

Lemma quantile_cons (a : Q) (s : list Q) (p : Q) :
  quantile (a :: s) p
  = Some (lerp_at (a :: s) (inject_Z (Z.of_nat (length (a :: s)) - 1) * p)).
Proof. reflexivity. Qed.

(** The quantile at probability 0 is the smallest value. *)
Lemma quantile_first (s : list Q) (q : positive) (e : Q) :
  quantile s (0 # q) = Some e -> (e == nth 0 s 0)%Q.
Proof.
  destruct s as [|a s]; [discriminate |].
  rewrite quantile_cons. intros H.
  assert (He : e = lerp_at (a :: s) (inject_Z (Z.of_nat (length (a :: s)) - 1) * (0 # q)))
    by congruence.
  rewrite He. apply (lerp_at_whole (a :: s) _ 0).
  unfold Qeq, Qmult, inject_Z. simpl Qnum. simpl Qden. ring.
Qed.

(** The quantile at probability q/q is the largest value. *)
Lemma quantile_last (s : list Q) (q : positive) (e : Q) :
  quantile s (Zpos q # q) = Some e -> (e == nth (length s - 1) s 0)%Q.
Proof.
  destruct s as [|a s]; [discriminate |].
  rewrite quantile_cons. intros H.
  assert (He : e = lerp_at (a :: s)
                     (inject_Z (Z.of_nat (length (a :: s)) - 1) * (Zpos q # q)))
    by congruence.
  rewrite He.
  assert (Hi : (length (a :: s) - 1)%nat = Z.to_nat (Z.of_nat (length (a :: s)) - 1))
    by lia.
  rewrite Hi. apply lerp_at_whole.
  unfold Qeq, Qmult, inject_Z. simpl Qnum. simpl Qden. apply Z.mul_1_r.
Qed.

Lemma searchsorted_left_le (bins : list Q) (x : Q) (i : nat) :
  (i < length bins)%nat -> (x <= nth i bins 0)%Q ->
  (searchsorted_left bins x <= i)%nat.
Proof.
  revert i; induction bins as [|b bins IH]; intros i Hi Hx; simpl in *; [lia |].
  destruct (Qle_bool x b) eqn:Hb; [lia |].
  destruct i as [|i].
  - apply Qle_bool_iff in Hx. congruence.
  - apply le_n_S, IH; [lia | exact Hx].
Qed.

(** A value between the first and the last edge has a bin. *)
Lemma bin_id_in_range (bins : list Q) (x : Q) :
  (2 <= length bins)%nat ->
  (nth 0 bins 0 <= x)%Q -> (x <= nth (length bins - 1) bins 0)%Q ->
  exists i, bin_id bins x = Some i /\ (1 <= i <= length bins - 1)%nat.
Proof.
  intros Hlen Hlo Hhi. unfold bin_id.
  destruct bins as [|b0 bins]; [simpl in Hlen; lia |].
  pose proof (searchsorted_left_le (b0 :: bins) x (length (b0 :: bins) - 1)
                ltac:(simpl; lia) Hhi) as Hss.
  destruct (Qeq_bool x b0) eqn:Heq.
  - exists 1%nat. simpl length in *.
    destruct (1 =? S (length bins))%nat eqn:E; [apply Nat.eqb_eq in E; lia |].
    simpl. split; [reflexivity | lia].
  - assert (Hpos : (1 <= searchsorted_left (b0 :: bins) x)%nat).
    { simpl. destruct (Qle_bool x b0) eqn:Hb; [| lia].
      apply Qle_bool_iff in Hb. simpl in Hlo.
      assert (x == b0)%Q by (apply Qle_antisym; assumption).
      apply Qeq_bool_iff in H. congruence. }
    exists (searchsorted_left (b0 :: bins) x).
    destruct (searchsorted_left (b0 :: bins) x =? length (b0 :: bins))%nat eqn:E1;
      [apply Nat.eqb_eq in E1; simpl length in *; lia |].
    destruct (searchsorted_left (b0 :: bins) x =? 0)%nat eqn:E2;
      [apply Nat.eqb_eq in E2; lia |].
    simpl orb. split; [reflexivity | lia].
Qed.

Lemma dropna_map_Some {A : Type} (l : list A) : dropna (map Some l) = l.
Proof.
  induction l as [|a l IH]; [reflexivity |].
  unfold dropna in *. simpl. now rewrite IH.
Qed.

Lemma quantile_edges_length (x : list (option Q)) (q : nat) :
  length (quantile_edges x q) = (q + 1)%nat.
Proof. unfold quantile_edges, linspace. now rewrite !length_map, length_seq. Qed.

(** The edges of a column with at least one value: none is NaN, the first is
    the smallest value and the last the largest. *)
Lemma quantile_edges_bounds (x : list (option Q)) (q : nat) :
  (1 <= q)%nat -> dropna x <> [] ->
  let s := isort Qle_bool (dropna x) in
  exists bins,
    quantile_edges x q = map Some bins /\ length bins = (q + 1)%nat
    /\ (nth 0 bins 0 == nth 0 s 0)%Q
    /\ (nth q bins 0 == nth (length s - 1) s 0)%Q.
Proof.
  intros Hq Hne s.
  assert (Hs : s <> []).
  { intros E. apply Hne.
    apply Permutation_nil. rewrite <- E. apply isort_perm. }
  set (f := fun p => lerp_at s (inject_Z (Z.of_nat (length s) - 1) * p)).
  assert (Hquant : forall p, quantile s p = Some (f p)).
  { intros p. destruct s; [congruence | reflexivity]. }
  exists (map f (linspace q)). repeat split.
  - unfold quantile_edges. fold s. rewrite map_map. apply map_ext. exact Hquant.
  - unfold linspace. now rewrite !length_map, length_seq.
  - unfold linspace. rewrite map_map.
    replace (q + 1)%nat with (S q) by lia. simpl seq. simpl map. simpl nth.
    apply (quantile_first s (Pos.of_nat q)). apply Hquant.
  - unfold linspace. rewrite map_map.
    set (g := fun k => f (Z.of_nat k # Pos.of_nat q)).
    assert (Hnth : nth q (map g (seq 0 (q + 1))) 0%Q = g q).
    { rewrite nth_indep with (d' := g 0%nat) by (rewrite length_map, length_seq; lia).
      rewrite map_nth. f_equal. rewrite seq_nth; lia. }
    rewrite Hnth. unfold g.
    assert (Hz : Z.of_nat q = Zpos (Pos.of_nat q)).
    { destruct q as [|q']; [lia |]. rewrite <- Pos.of_nat_succ. lia. }
    rewrite Hz. apply (quantile_last s (Pos.of_nat q)). apply Hquant.
Qed.

(** With as many labels as bins, a value of the column always gets one. *)
Lemma take_label_total {L : Type} (labels : list L) (x : list (option Q)) (q : nat)
      (v : Q) :
  (1 <= q)%nat -> length labels = q -> In (Some v) x ->
  take_label labels (dropna (quantile_edges x q)) (Some v) <> None.
Proof.
  intros Hq Hlab Hv.
  assert (Hne : dropna x <> []).
  { intros E. apply In_dropna in Hv. rewrite E in Hv. contradiction. }
  destruct (quantile_edges_bounds x q Hq Hne) as (bins & -> & Hlen & Hfirst & Hlast).
  rewrite dropna_map_Some.
  destruct (sorted_column_bounds x v Hv) as [Hlo Hhi].
  destruct (bin_id_in_range bins v) as (i & Hi & Hrange).
  - lia.
  - now rewrite Hfirst.
  - replace (length bins - 1)%nat with q by lia. now rewrite Hlast.
  - unfold take_label. rewrite Hi. apply nth_error_Some. lia.
Qed.

Lemma astype_int_inv (nm : string) (l : list (option Z)) (l' : list Z) :
  astype_int nm l = Ok l' -> map Some l' = l.
Proof.
  revert l'; induction l as [|[z|] l IH]; intros l' H; simpl in H.
  - injection H as <-. reflexivity.
  - destruct (astype_int nm l) as [l''|]; simpl in H; [| discriminate].
    injection H as <-. simpl. now rewrite (IH l'' eq_refl).
  - discriminate.
Qed.

Lemma astype_int_total (nm : string) (l : list (option Z)) :
  Forall (fun o => o <> None) l -> exists l', astype_int nm l = Ok l'.
Proof.
  induction 1 as [|[z|] l Hz _ IH]; simpl.
  - now eexists.
  - destruct IH as [l' ->]. simpl. now eexists.
  - congruence.
Qed.

Lemma qcut_inv {L : Type} (x : Series (option Q)) (q : nat) (labels : list L)
      (c : list (option L)) :
  qcut x q labels = Ok c ->
  c = map (take_label labels (dropna (quantile_edges (values x) q))) (values x).
Proof.
  unfold qcut. intros H.
  destruct (_ && _); [discriminate |].
  destruct (negb _); [discriminate |].
  now injection H as <-.
Qed.

(** The two outcomes of a [qcut] whose labels fit [q] bins, [q >= 2]. *)
Lemma qcut_cases {L : Type} (x : Series (option Q)) (q : nat) (labels : list L) :
  (2 <= q)%nat -> length labels = q ->
  let bins := quantile_edges (values x) q in
  ((length (unique bins) < length bins)%nat
   /\ qcut x q labels = Raise (ValueError_bin_edges (name x) bins))
  \/ ((length (unique bins) >= length bins)%nat
      /\ qcut x q labels = Ok (map (take_label labels (dropna bins)) (values x))).
Proof.
  intros Hq Hlab bins. unfold qcut. fold bins.
  assert (Hlen : length bins = (q + 1)%nat) by apply quantile_edges_length.
  assert (H2 : (length bins =? 2)%nat = false) by (apply Nat.eqb_neq; lia).
  assert (H3 : (length labels =? length bins - 1)%nat = true) by (apply Nat.eqb_eq; lia).
  rewrite H2, H3. simpl negb. rewrite andb_true_r.
  destruct (Nat.ltb_spec (length (unique bins)) (length bins)).
  - left. split; [assumption | reflexivity].
  - right. split; [assumption | reflexivity].
Qed.

(** ** Grouping and merging *)

Lemma filter_map_comm {A B : Type} (p : B -> bool) (f : A -> B) (l : list A) :
  filter p (map f l) = map f (filter (fun a => p (f a)) l).
Proof.
  induction l as [|a l IH]; simpl; [reflexivity |].
  destruct (p (f a)); simpl; now rewrite IH.
Qed.

Lemma group_keys_NoDup {R : Type} (key : R -> Z) (rows : list R) :
  NoDup (group_keys key rows).
Proof.
  unfold group_keys.
  apply (Permutation_NoDup (Permutation_sym (isort_perm Z.leb _))).
  apply NoDup_nodup.
Qed.

Lemma group_keys_In {R : Type} (key : R -> Z) (rows : list R) (k : Z) :
  In k (group_keys key rows) <-> In k (map key rows).
Proof.
  unfold group_keys. split; intros H.
  - apply (nodup_In Z.eq_dec). revert H. apply Permutation_in, isort_perm.
  - apply (nodup_In Z.eq_dec) in H. revert H.
    apply Permutation_in, Permutation_sym, isort_perm.
Qed.

(** In a table with one row per key, selecting a key gives that one row. *)
Lemma filter_unique_key {V : Type} (g : Z -> V) (keys : list Z) (k : Z) :
  NoDup keys -> In k keys ->
  filter (fun kv => fst kv =? k) (map (fun k' => (k', g k')) keys) = [(k, g k)].
Proof.
  induction 1 as [|k0 keys Hk0 Hnd IH]; intros Hin; [contradiction |].
  simpl. destruct (Z.eqb_spec k0 k) as [-> | Hne].
  - f_equal.
    assert (Hnone : forall l, ~ In k l ->
              filter (fun kv : Z * V => fst kv =? k) (map (fun k' => (k', g k')) l) = []).
    { induction l as [|a l IHl]; intros Hnot; simpl; [reflexivity |].
      destruct (Z.eqb_spec a k) as [-> | _]; [exfalso; apply Hnot; now left |].
      apply IHl. intros H'. apply Hnot. now right. }
    now apply Hnone.
  - destruct Hin as [-> | Hin]; [congruence |]. now apply IH.
Qed.

(** Merging a table with the aggregates of its own groups: every row gets
    the aggregate of the rows sharing its key, and no row is added or lost. *)
Lemma merge_left_groupby {R R' V : Type} (key : R -> Z) (key' : R' -> Z)
      (agg : list R -> V) (rows : list R) (left : list R') :
  (forall r', In r' left -> In (key' r') (map key rows)) ->
  merge_left key' left (groupby key agg rows)
  = map (fun r' => (r', Some (agg (filter (fun r => key r =? key' r') rows)))) left.
Proof.
  unfold merge_left, groupby.
  induction left as [|r' left IH]; intros Hkeys; simpl; [reflexivity |].
  rewrite (filter_unique_key (fun k => agg (filter (fun r => key r =? k) rows))).
  - simpl. f_equal. apply IH. intros r Hr. apply Hkeys. now right.
  - apply group_keys_NoDup.
  - apply group_keys_In, Hkeys. now left.
Qed.

(** Lines 27-37, row by row. *)
Lemma derive_measures_rows (now : Z) (data : list Txn) :
  derive_measures now data
  = map (fun t => mkMeasured t
                    (days_between now (PurchaseDate t))
                    (Some (count (customer_rows data (CustomerID t))))
                    (Some (sum (map TransactionAmount (customer_rows data (CustomerID t))))))
        data.
Proof.
  unfold derive_measures.
  set (data1 := map (fun t => (t, days_between now (PurchaseDate t))) data).
  rewrite (merge_left_groupby (fun r => CustomerID (fst r)) (fun r => CustomerID (fst r))).
  2:{ intros r Hr. exact (in_map (fun r : Txn * Z => CustomerID (fst r)) data1 r Hr). }
  rewrite (merge_left_groupby (fun r => CustomerID (fst r))
                              (fun r => CustomerID (fst (fst r)))).
  2:{ intros r Hr. apply in_map_iff in Hr. destruct Hr as (r0 & <- & Hr0). simpl.
      exact (in_map (fun r : Txn * Z => CustomerID (fst r)) data1 r0 Hr0). }
  unfold data1. rewrite !map_map. apply map_ext. intros t. simpl.
  rewrite !filter_map_comm. simpl. unfold count, customer_rows.
  now rewrite !map_map, !length_map.
Qed.

(** ** Scoring, row by row *)

Lemma loc_assign_map {A : Type} (f : A -> bool) (g : A -> string) (v : string)
      (l : list A) :
  loc_assign (map f l) v (map g l) = map (fun a => if f a then v else g a) l.
Proof.
  unfold loc_assign. rewrite combine_map_map, map_map. reflexivity.
Qed.

Lemma assign_rules_map (rules : list ((Z -> bool) * string)) (g : Z -> string)
      (rfm : list Z) :
  fold_left (fun column rule => loc_assign (map (fst rule) rfm) (snd rule) column)
            rules (map g rfm)
  = map (fun s => fold_left (fun (cell : string) (rule : (Z -> bool) * string) =>
                               if fst rule s then snd rule else cell)
                            rules (g s)) rfm.
Proof.
  revert g; induction rules as [|rule rules IH]; intros g; simpl; [reflexivity |].
  rewrite loc_assign_map. apply (IH (fun s => if fst rule s then snd rule else g s)).
Qed.

Lemma assign_segments_map (rfm : list Z) :
  assign_segments rfm = map segment_of rfm.
Proof. unfold assign_segments. apply assign_rules_map. Qed.

Lemma astype_int_map {A : Type} (nm : string) (f : A -> option Z) (l : list A) :
  Forall (fun a => f a <> None) l ->
  astype_int nm (map f l) = Ok (map (fun a => label_or 0 (f a)) l).
Proof.
  induction 1 as [|a l Ha _ IH]; simpl; [reflexivity |].
  destruct (f a) as [z|] eqn:E; [| congruence].
  rewrite IH. reflexivity.
Qed.

(** In a complete table every row gets a label from each measure cut. *)
Lemma measure_labels_total (data : list Measured) :
  complete data ->
  Forall (fun d => Recency_label data d <> None) data
  /\ Forall (fun d => Frequency_label data d <> None) data
  /\ Forall (fun d => MonetaryValue_label data d <> None) data.
Proof.
  intros Hc. unfold complete in Hc. rewrite Forall_forall in Hc.
  repeat split; apply Forall_forall; intros d Hd; destruct (Hc d Hd) as [HF HM].
  - apply take_label_total; [lia | reflexivity |].
    exact (in_map (fun d => Some (inject_Z (Recency d))) data d Hd).
  - unfold Frequency_label. destruct (Frequency d) as [f|] eqn:E; [| congruence].
    apply take_label_total; [lia | reflexivity |].
    apply in_map_iff. exists d. rewrite E. now split.
  - unfold MonetaryValue_label. destruct (MonetaryValue d) as [m|] eqn:E; [| congruence].
    apply take_label_total; [lia | reflexivity |].
    apply in_map_iff. exists d. now split.
Qed.

Lemma bind_Ok {A B : Type} (a : A) (k : A -> result B) : bind (Ok a) k = k a.
Proof. reflexivity. Qed.

Lemma bind_Raise {A B : Type} (e : exn) (k : A -> result B) :
  bind (Raise e) k = Raise e.
Proof. reflexivity. Qed.

(** One measure cut followed by [astype(int)], when no label is missing. *)
Lemma measure_cut {A : Type} (col : Series (option Q)) (nm : string) (labels : list Z)
      (g : A -> option Q) (data : list A) :
  values col = map g data -> length labels = 5%nat ->
  Forall (fun d => take_label labels (dropna (quantile_edges (values col) 5)) (g d)
                   <> None) data ->
  (c <- qcut col 5 labels ;; astype_int nm c)
  = if duplicate_edges (quantile_edges (values col) 5)
    then Raise (ValueError_bin_edges (name col) (quantile_edges (values col) 5))
    else Ok (map (fun d => label_or 0 (take_label labels
                                         (dropna (quantile_edges (values col) 5)) (g d)))
                 data).
Proof.
  intros Hcol Hlab Hall. unfold duplicate_edges.
  destruct (qcut_cases col 5 labels) as [[Hlt ->] | [Hge ->]]; [lia | exact Hlab | | ].
  - apply Nat.ltb_lt in Hlt. rewrite Hlt. reflexivity.
  - apply Nat.ltb_ge in Hge. rewrite Hge, bind_Ok.
    set (edges := dropna (quantile_edges (values col) 5)) in *.
    rewrite Hcol, map_map. now apply astype_int_map.
Qed.

(** Lines 45-62 on a complete table: the first cut with duplicate edges
    raises; otherwise every row is segmented. *)
Lemma score_outcome (data : list Measured) :
  complete data ->
  score data =
  if duplicate_edges (quantile_edges (values (Recency_col data)) 5)
  then Raise (ValueError_bin_edges "Recency"
                (quantile_edges (values (Recency_col data)) 5))
  else if duplicate_edges (quantile_edges (values (Frequency_col data)) 5)
  then Raise (ValueError_bin_edges "Frequency"
                (quantile_edges (values (Frequency_col data)) 5))
  else if duplicate_edges (quantile_edges (values (MonetaryValue_col data)) 5)
  then Raise (ValueError_bin_edges "MonetaryValue"
                (quantile_edges (values (MonetaryValue_col data)) 5))
  else if duplicate_edges
            (quantile_edges (values (RFM_Score_col (map (rfm_of data) data))) 3)
  then Raise (ValueError_bin_edges "RFM_Score"
                (quantile_edges (values (RFM_Score_col (map (rfm_of data) data))) 3))
  else Ok (map (score_row data) data).
Proof.
  intros Hc. destruct (measure_labels_total data Hc) as (HR & HF & HM).
  unfold score.
  rewrite (measure_cut (Recency_col data) "RecencyScore" recency_scores
             (fun d => Some (inject_Z (Recency d))) data eq_refl eq_refl HR).
  destruct (duplicate_edges (quantile_edges (values (Recency_col data)) 5));
    [reflexivity |]. rewrite bind_Ok.
  rewrite (measure_cut (Frequency_col data) "FrequencyScore" frequency_scores
             (fun d => option_map inject_Z (Frequency d)) data eq_refl eq_refl HF).
  destruct (duplicate_edges (quantile_edges (values (Frequency_col data)) 5));
    [reflexivity |]. rewrite bind_Ok.
  rewrite (measure_cut (MonetaryValue_col data) "MonetaryScore" monetary_scores
             MonetaryValue data eq_refl eq_refl HM).
  destruct (duplicate_edges (quantile_edges (values (MonetaryValue_col data)) 5));
    [reflexivity |]. rewrite bind_Ok.
  rewrite !combine_map_map, map_map.
  match goal with
  | |- context [RFM_Score_col ?l] => change l with (map (rfm_of data) data)
  end.
  fold (duplicate_edges
          (quantile_edges (values (RFM_Score_col (map (rfm_of data) data))) 3)).
  destruct (qcut_cases (RFM_Score_col (map (rfm_of data) data)) 3 segment_labels)
    as [[Hlt ->] | [Hge ->]]; [lia | reflexivity | | ].
  { apply Nat.ltb_lt in Hlt. unfold duplicate_edges. rewrite Hlt. reflexivity. }
  apply Nat.ltb_ge in Hge. unfold duplicate_edges. rewrite Hge, bind_Ok.
  f_equal. rewrite assign_segments_map.
  change (values (RFM_Score_col (map (rfm_of data) data)))
    with (map (fun s => Some (inject_Z s)) (map (rfm_of data) data)).
  rewrite !map_map.
  rewrite combine_map_r, !combine_map_map, map_map.
  apply map_ext. intros d.
  unfold score_row, RFM_Score_edges, RFM_Score_col. cbn [values].
  rewrite map_map. reflexivity.
Qed.

(** ** The pipeline *)

Lemma derive_measures_complete (now : Z) (data : list Txn) :
  complete (derive_measures now data).
Proof.
  rewrite derive_measures_rows. unfold complete.
  apply Forall_forall. intros d Hd. apply in_map_iff in Hd.
  destruct Hd as (t & <- & _). simpl. split; discriminate.
Qed.

Lemma take_label_In {L : Type} (labels : list L) (bins : list Q) (x : option Q) (z : L) :
  take_label labels bins x = Some z -> In z labels.
Proof.
  unfold take_label. destruct x as [v|]; [| discriminate].
  destruct (bin_id bins v); [| discriminate]. apply nth_error_In.
Qed.

(** What a successful run says about each of its rows. *)
Lemma pipeline_rows (now : Z) (data : list Txn) (out : list Scored) :
  pipeline now data = Ok out ->
  let table := derive_measures now data in
  out = map (score_row table) table
  /\ forall r, In r out ->
       In (measured r) table
       /\ r = score_row table (measured r)
       /\ Recency_label table (measured r) = Some (RecencyScore r)
       /\ Frequency_label table (measured r) = Some (FrequencyScore r)
       /\ MonetaryValue_label table (measured r) = Some (MonetaryScore r).
Proof.
  intros H table. unfold pipeline in H. fold table in H.
  pose proof (derive_measures_complete now data) as Hc. fold table in Hc.
  rewrite (score_outcome table Hc) in H.
  repeat match type of H with
         | (if ?b then _ else _) = _ => destruct b; [discriminate |]
         end.
  injection H as <-. split; [reflexivity |].
  intros r Hr. apply in_map_iff in Hr. destruct Hr as (d & <- & Hd).
  destruct (measure_labels_total table Hc) as (HR & HF & HM).
  rewrite Forall_forall in HR, HF, HM.
  specialize (HR d Hd). specialize (HF d Hd). specialize (HM d Hd).
  simpl. repeat split; [exact Hd | | | ].
  - destruct (Recency_label table d); [reflexivity | congruence].
  - destruct (Frequency_label table d); [reflexivity | congruence].
  - destruct (MonetaryValue_label table d); [reflexivity | congruence].
Qed.

Lemma pipeline_RFM_Score_column (now : Z) (data : list Txn) (out : list Scored) :
  pipeline now data = Ok out ->
  map RFM_Score out
  = map (rfm_of (derive_measures now data)) (derive_measures now data).
Proof.
  intros H. destruct (pipeline_rows now data out H) as [-> _].
  rewrite map_map. reflexivity.
Qed.

Lemma score_label_range (labels : list Z) (bins : list Q) (x : option Q) (z : Z) :
  labels = recency_scores \/ labels = frequency_scores ->
  take_label labels bins x = Some z -> 1 <= z <= 5.
Proof.
  intros Hl H. apply take_label_In in H.
  destruct Hl as [-> | ->]; simpl in H; lia.
Qed.

(** The five rules partition the integers: the cell of a score. *)
Lemma segment_of_table (s : Z) :
  (9 <= s -> segment_of s = "Champions"%string)
  /\ (6 <= s < 9 -> segment_of s = "Potential Loyalists"%string)
  /\ (s = 5 -> segment_of s = "At Risk Customers"%string)
  /\ (s = 4 -> segment_of s = "Can't Lose"%string)
  /\ (s < 4 -> segment_of s = "Lost"%string).
Proof.
  unfold segment_of, segment_rules. simpl.
  repeat split; intros H;
    destruct (Z.leb_spec 9 s), (Z.leb_spec 6 s), (Z.leb_spec 5 s), (Z.leb_spec 4 s),
             (Z.ltb_spec s 9), (Z.ltb_spec s 6), (Z.ltb_spec s 5), (Z.ltb_spec s 4);
    simpl; try reflexivity; lia.
Qed.

Lemma matching_rules_single (s : Z) :
  exists rule, matching_rules s = [rule] /\ segment_of s = snd rule.
Proof.
  unfold matching_rules, segment_of, segment_rules. simpl.
  destruct (Z.leb_spec 9 s), (Z.leb_spec 6 s), (Z.leb_spec 5 s), (Z.leb_spec 4 s),
           (Z.ltb_spec s 9), (Z.ltb_spec s 6), (Z.ltb_spec s 5), (Z.ltb_spec s 4);
    simpl; try lia; eexists; split; reflexivity.
Qed.

(** ** Properties of the segmented table *)

(** C1.  In the table of a successful run, every row has
    RFM_Score = RecencyScore + FrequencyScore + MonetaryScore with each score
    in 1..5, so RFM_Score lies in 3..15; exactly one of the five threshold
    rules matches the score, the segment is the label of that rule as the
    threshold table gives it, and no row keeps the initial empty label. *)
Theorem rfm_score_range_and_segment (now : Z) (data : list Txn) (out : list Scored)
        (r : Scored) :
  pipeline now data = Ok out -> In r out ->
  RFM_Score r = RecencyScore r + FrequencyScore r + MonetaryScore r
  /\ 3 <= RFM_Score r <= 15
  /\ (exists rule, matching_rules (RFM_Score r) = [rule]
                   /\ RFM_Customer_Segments r = snd rule)
  /\ (9 <= RFM_Score r -> RFM_Customer_Segments r = "Champions"%string)
  /\ (6 <= RFM_Score r < 9 -> RFM_Customer_Segments r = "Potential Loyalists"%string)
  /\ (RFM_Score r = 5 -> RFM_Customer_Segments r = "At Risk Customers"%string)
  /\ (RFM_Score r = 4 -> RFM_Customer_Segments r = "Can't Lose"%string)
  /\ (RFM_Score r < 4 -> RFM_Customer_Segments r = "Lost"%string)
  /\ RFM_Customer_Segments r <> EmptyString.
Proof.
  intros H Hr.
  destruct (pipeline_rows now data out H) as [_ Hrows].
  destruct (Hrows r Hr) as (_ & Hrow & HR & HF & HM).
  set (table := derive_measures now data) in *.
  unfold Recency_label in HR. unfold Frequency_label in HF.
  unfold MonetaryValue_label in HM.
  apply score_label_range in HR; [| now left].
  apply score_label_range in HF; [| now right].
  apply score_label_range in HM; [| now right].
  assert (Hsum : RFM_Score r = RecencyScore r + FrequencyScore r + MonetaryScore r).
  { rewrite Hrow. reflexivity. }
  assert (Hseg : RFM_Customer_Segments r = segment_of (RFM_Score r)).
  { rewrite Hrow. reflexivity. }
  destruct (segment_of_table (RFM_Score r)) as (T1 & T2 & T3 & T4 & T5).
  rewrite Hseg.
  split; [exact Hsum |]. split; [lia |].
  split; [apply matching_rules_single |].
  repeat (split; [assumption |]).
  assert (Hcases : 9 <= RFM_Score r \/ 6 <= RFM_Score r < 9 \/ RFM_Score r = 5
                   \/ RFM_Score r = 4 \/ RFM_Score r < 4) by lia.
  destruct Hcases as [C | [C | [C | [C | C]]]];
    [rewrite (T1 C) | rewrite (T2 C) | rewrite (T3 C) | rewrite (T4 C) | rewrite (T5 C)];
    discriminate.
Qed.

Lemma shop_a_runs : pipeline Sample.now Sample.shop_a = Ok (Sample.run_of Sample.shop_a).
Proof. vm_compute. reflexivity. Defined.

Lemma rfm_score_range_and_segment_witness :
  In (nth 3 (Sample.run_of Sample.shop_a) Sample.no_row) (Sample.run_of Sample.shop_a)
  /\ RFM_Score (nth 3 (Sample.run_of Sample.shop_a) Sample.no_row) = 9
  /\ RFM_Customer_Segments (nth 3 (Sample.run_of Sample.shop_a) Sample.no_row)
     = "Champions"%string.
Proof.
  assert (Hin : In (nth 3 (Sample.run_of Sample.shop_a) Sample.no_row)
                   (Sample.run_of Sample.shop_a))
    by (apply nth_In; vm_compute; lia).
  split; [exact Hin |]. split; [vm_compute; reflexivity |].
  apply (rfm_score_range_and_segment Sample.now Sample.shop_a _ _ shop_a_runs Hin).
  vm_compute. discriminate.
Defined.

Lemma measured_row (now : Z) (data : list Txn) (d : Measured) :
  In d (derive_measures now data) ->
  In (txn d) data
  /\ Recency d = days_between now (PurchaseDate (txn d))
  /\ Frequency d = Some (count (customer_rows data (CustomerID (txn d))))
  /\ MonetaryValue d
     = Some (sum (map TransactionAmount (customer_rows data (CustomerID (txn d))))).
Proof.
  rewrite derive_measures_rows. intros H. apply in_map_iff in H.
  destruct H as (t & <- & Ht). simpl. repeat split. exact Ht.
Qed.

(** C2, as the code has it.  Rows of one customer carry the same Frequency
    and MonetaryValue and therefore the same FrequencyScore and
    MonetaryScore.  (Recency is per row, so RecencyScore, RFM_Score and the two
    segments may differ between them.) *)
Theorem same_customer_same_aggregates (now : Z) (data : list Txn) (out : list Scored)
        (r1 r2 : Scored) :
  pipeline now data = Ok out -> In r1 out -> In r2 out ->
  CustomerID (txn (measured r1)) = CustomerID (txn (measured r2)) ->
  Frequency (measured r1) = Frequency (measured r2)
  /\ MonetaryValue (measured r1) = MonetaryValue (measured r2)
  /\ FrequencyScore r1 = FrequencyScore r2
  /\ MonetaryScore r1 = MonetaryScore r2.
Proof.
  intros H H1 H2 Hc.
  destruct (pipeline_rows now data out H) as [_ Hrows].
  destruct (Hrows r1 H1) as (Hd1 & _ & _ & HF1 & HM1).
  destruct (Hrows r2 H2) as (Hd2 & _ & _ & HF2 & HM2).
  destruct (measured_row now data _ Hd1) as (_ & _ & Hf1 & Hm1).
  destruct (measured_row now data _ Hd2) as (_ & _ & Hf2 & Hm2).
  assert (HF : Frequency (measured r1) = Frequency (measured r2))
    by (rewrite Hf1, Hf2, Hc; reflexivity).
  assert (HM : MonetaryValue (measured r1) = MonetaryValue (measured r2))
    by (rewrite Hm1, Hm2, Hc; reflexivity).
  split; [exact HF |]. split; [exact HM |]. split.
  - unfold Frequency_label in HF1, HF2. rewrite HF in HF1. congruence.
  - unfold MonetaryValue_label in HM1, HM2. rewrite HM in HM1. congruence.
Qed.

Lemma same_customer_same_aggregates_witness :
  CustomerID (txn (measured (nth 8 (Sample.run_of Sample.shop_a) Sample.no_row)))
  = CustomerID (txn (measured (nth 9 (Sample.run_of Sample.shop_a) Sample.no_row)))
  /\ Frequency (measured (nth 8 (Sample.run_of Sample.shop_a) Sample.no_row))
     = Frequency (measured (nth 9 (Sample.run_of Sample.shop_a) Sample.no_row))
  /\ MonetaryValue (measured (nth 8 (Sample.run_of Sample.shop_a) Sample.no_row))
     = MonetaryValue (measured (nth 9 (Sample.run_of Sample.shop_a) Sample.no_row))
  /\ FrequencyScore (nth 8 (Sample.run_of Sample.shop_a) Sample.no_row)
     = FrequencyScore (nth 9 (Sample.run_of Sample.shop_a) Sample.no_row)
  /\ MonetaryScore (nth 8 (Sample.run_of Sample.shop_a) Sample.no_row)
     = MonetaryScore (nth 9 (Sample.run_of Sample.shop_a) Sample.no_row).
Proof.
  split; [vm_compute; reflexivity |].
  apply (same_customer_same_aggregates Sample.now Sample.shop_a (Sample.run_of Sample.shop_a)).
  - exact shop_a_runs.
  - apply nth_In. vm_compute. lia.
  - apply nth_In. vm_compute. lia.
  - vm_compute. reflexivity.
Defined.

(** C2 as stated fails: rows 8 and 9 of the sample belong to customer 5 and
    were bought 12 and 10 days before the run; they get RecencyScore 1 and 2,
    RFM_Score 8 and 9, Low-Value and Mid-Value, Potential Loyalists and
    Champions. *)
Lemma same_customer_scores_differ :
  ~ (forall (now : Z) (data : list Txn) (out : list Scored) (r1 r2 : Scored),
        pipeline now data = Ok out -> In r1 out -> In r2 out ->
        CustomerID (txn (measured r1)) = CustomerID (txn (measured r2)) ->
        Frequency (measured r1) = Frequency (measured r2)
        /\ MonetaryValue (measured r1) = MonetaryValue (measured r2)
        /\ RecencyScore r1 = RecencyScore r2
        /\ FrequencyScore r1 = FrequencyScore r2
        /\ MonetaryScore r1 = MonetaryScore r2
        /\ RFM_Score r1 = RFM_Score r2
        /\ Value_Segment r1 = Value_Segment r2
        /\ RFM_Customer_Segments r1 = RFM_Customer_Segments r2).
Proof.
  intros Hall.
  destruct (Hall Sample.now Sample.shop_a (Sample.run_of Sample.shop_a)
                 (nth 8 (Sample.run_of Sample.shop_a) Sample.no_row)
                 (nth 9 (Sample.run_of Sample.shop_a) Sample.no_row))
    as (_ & _ & HR & _).
  - exact shop_a_runs.
  - apply nth_In. vm_compute. lia.
  - apply nth_In. vm_compute. lia.
  - vm_compute. reflexivity.
  - vm_compute in HR. discriminate.
Qed.

Example shop_a_rows_8_9 :
  map (fun r => (CustomerID (txn (measured r)), Recency (measured r), RecencyScore r,
                 RFM_Score r, Value_Segment r, RFM_Customer_Segments r))
      [nth 8 (Sample.run_of Sample.shop_a) Sample.no_row; nth 9 (Sample.run_of Sample.shop_a) Sample.no_row]
  = [ (5, 12, 1, 8, Some "Low-Value"%string, "Potential Loyalists"%string);
      (5, 10, 2, 9, Some "Mid-Value"%string, "Champions"%string) ].
Proof. vm_compute. reflexivity. Qed.

Lemma days_between_earlier (now d1 d2 : Z) :
  d1 + ns_per_day <= d2 -> days_between now d2 < days_between now d1.
Proof.
  intros H. unfold days_between.
  assert (HN : 0 < ns_per_day) by reflexivity.
  assert (Hstep : (now - d2 + 1 * ns_per_day) / ns_per_day = (now - d2) / ns_per_day + 1)
    by (apply Z.div_add; lia).
  assert (Hmono : (now - d2 + 1 * ns_per_day) / ns_per_day <= (now - d1) / ns_per_day)
    by (apply Z.div_le_mono; lia).
  lia.
Qed.

(** C3.  Recency is computed on each row from that row's own PurchaseDate,
    as the whole days between it and the reference instant; Frequency and
    MonetaryValue are the row count and the amount total of the row's
    customer, repeated on each of the customer's rows.  The table of a
    successful run carries these rows unchanged, and two rows of one customer
    bought at least a day apart keep different Recency values. *)
Theorem recency_per_row_aggregates_per_customer (now : Z) (data : list Txn) :
  derive_measures now data
  = map (fun t => mkMeasured t
                    (days_between now (PurchaseDate t))
                    (Some (count (customer_rows data (CustomerID t))))
                    (Some (sum (map TransactionAmount
                                    (customer_rows data (CustomerID t))))))
        data
  /\ (forall out, pipeline now data = Ok out ->
                  map measured out = derive_measures now data)
  /\ (forall d1 d2, In d1 (derive_measures now data) ->
                    In d2 (derive_measures now data) ->
                    CustomerID (txn d1) = CustomerID (txn d2) ->
                    PurchaseDate (txn d1) + ns_per_day <= PurchaseDate (txn d2) ->
                    Recency d2 < Recency d1
                    /\ Frequency d1 = Frequency d2
                    /\ MonetaryValue d1 = MonetaryValue d2).
Proof.
  split; [apply derive_measures_rows |]. split.
  - intros out H. destruct (pipeline_rows now data out H) as [-> _].
    rewrite map_map. simpl. apply map_id.
  - intros d1 d2 H1 H2 Hc Hdate.
    destruct (measured_row now data d1 H1) as (_ & -> & -> & ->).
    destruct (measured_row now data d2 H2) as (_ & -> & -> & ->).
    rewrite Hc. split; [| split; reflexivity].
    now apply days_between_earlier.
Qed.

Lemma recency_per_row_aggregates_per_customer_witness :
  map (fun d => (CustomerID (txn d), Recency d, Frequency d, MonetaryValue d))
      [ nth 8 (derive_measures Sample.now Sample.shop_a) (measured Sample.no_row);
        nth 9 (derive_measures Sample.now Sample.shop_a) (measured Sample.no_row) ]
  = [ (5, 12, Some 3, Some 50%Q); (5, 10, Some 3, Some 50%Q) ]
  /\ map measured (Sample.run_of Sample.shop_a) = derive_measures Sample.now Sample.shop_a
  /\ Recency (nth 9 (derive_measures Sample.now Sample.shop_a) (measured Sample.no_row))
     < Recency (nth 8 (derive_measures Sample.now Sample.shop_a) (measured Sample.no_row)).
Proof.
  pose proof (recency_per_row_aggregates_per_customer Sample.now Sample.shop_a)
    as (_ & Hout & Hrows).
  split; [vm_compute; reflexivity |].
  split; [exact (Hout _ shop_a_runs) |].
  apply Hrows.
  - apply nth_In. vm_compute. lia.
  - apply nth_In. vm_compute. lia.
  - vm_compute. reflexivity.
  - vm_compute. discriminate.
Defined.

(** C7, as the code has it.  Frequency is the number of rows of the
    customer, one per OrderID cell, whether or not OrderID values repeat. *)
Theorem frequency_counts_rows (now : Z) (data : list Txn) (d : Measured) :
  In d (derive_measures now data) ->
  Frequency d = Some (Z.of_nat (length (customer_rows data (CustomerID (txn d))))).
Proof.
  intros H. destruct (measured_row now data d H) as (_ & _ & -> & _). reflexivity.
Qed.

Lemma frequency_counts_rows_witness :
  Frequency (nth 0 (derive_measures Sample.now Sample.shop_dup) (measured Sample.no_row))
  = Some 2.
Proof.
  rewrite (frequency_counts_rows Sample.now Sample.shop_dup).
  - vm_compute. reflexivity.
  - apply nth_In. vm_compute. lia.
Defined.

(** C7 as stated fails: customer 1 of [shop_dup] has one order, recorded on
    two rows, and gets Frequency 2. *)
Lemma frequency_not_distinct_orders :
  ~ (forall (now : Z) (data : list Txn) (d : Measured),
        In d (derive_measures now data) ->
        Frequency d = Some (distinct_orders data (CustomerID (txn d)))).
Proof.
  intros Hall.
  specialize (Hall Sample.now Sample.shop_dup
                   (nth 0 (derive_measures Sample.now Sample.shop_dup)
                        (measured Sample.no_row))).
  assert (Hin : In (nth 0 (derive_measures Sample.now Sample.shop_dup)
                        (measured Sample.no_row))
                   (derive_measures Sample.now Sample.shop_dup))
    by (apply nth_In; vm_compute; lia).
  specialize (Hall Hin). vm_compute in Hall. discriminate.
Qed.

(** ** Monotonicity of the bins *)

Lemma searchsorted_left_mono (bins : list Q) (x y : Q) :
  (x <= y)%Q -> (searchsorted_left bins x <= searchsorted_left bins y)%nat.
Proof.
  intros Hxy. induction bins as [|b bins IH]; simpl; [lia |].
  destruct (Qle_bool x b) eqn:Hx; [lia |].
  destruct (Qle_bool y b) eqn:Hy; [| lia].
  apply Qle_bool_iff in Hy.
  assert (Qle_bool x b = true) by (apply Qle_bool_iff; eapply Qle_trans; eassumption).
  congruence.
Qed.

Lemma bin_id_pos (bins : list Q) (x : Q) (i : nat) :
  bin_id bins x = Some i -> (1 <= i)%nat.
Proof.
  unfold bin_id.
  set (ids := match bins with
              | b0 :: _ => if Qeq_bool x b0 then 1%nat else searchsorted_left bins x
              | [] => searchsorted_left bins x
              end).
  destruct (ids =? length bins)%nat; [discriminate |].
  destruct (ids =? 0)%nat eqn:E; [discriminate |].
  simpl. intros H. injection H as <-. apply Nat.eqb_neq in E. lia.
Qed.

(** A larger value never falls into an earlier bin. *)
Lemma bin_id_mono (bins : list Q) (x y : Q) (i j : nat) :
  (x <= y)%Q -> bin_id bins x = Some i -> bin_id bins y = Some j -> (i <= j)%nat.
Proof.
  intros Hxy Hi Hj.
  pose proof (bin_id_pos _ _ _ Hi) as Hipos.
  pose proof (bin_id_pos _ _ _ Hj) as Hjpos.
  unfold bin_id in Hi, Hj.
  destruct bins as [|b0 bins].
  - simpl in Hi. discriminate.
  - destruct (Qeq_bool x b0) eqn:Ex.
    + destruct (_ || _) in Hi; [discriminate |]. injection Hi as <-. exact Hjpos.
    + destruct (Qeq_bool y b0) eqn:Ey.
      * exfalso. apply Qeq_bool_iff in Ey.
        assert (Hle : Qle_bool x b0 = true)
          by (apply Qle_bool_iff; now rewrite <- Ey).
        simpl in Hi. rewrite Hle in Hi. simpl in Hi. discriminate.
      * destruct (_ || _) in Hi; [discriminate |]. injection Hi as <-.
        destruct (_ || _) in Hj; [discriminate |]. injection Hj as <-.
        exact (searchsorted_left_mono (b0 :: bins) x y Hxy).
Qed.

Lemma take_label_bin {L : Type} (labels : list L) (bins : list Q) (v : Q) (z : L) :
  take_label labels bins (Some v) = Some z ->
  exists i, bin_id bins v = Some i /\ (1 <= i)%nat /\ nth_error labels (i - 1) = Some z.
Proof.
  unfold take_label. destruct (bin_id bins v) as [i|] eqn:E; [| discriminate].
  intros H. exists i. split; [reflexivity |]. split; [| exact H].
  now apply bin_id_pos in E.
Qed.

(** Bin [i] carries the label [6 - i] for Recency and [i] for the others. *)
Lemma recency_label_value (i : nat) (z : Z) :
  (1 <= i)%nat -> nth_error recency_scores (i - 1) = Some z -> z = 6 - Z.of_nat i.
Proof.
  intros Hi H.
  do 6 (destruct i as [|i]; [simpl in H; try lia; injection H as <-; reflexivity |]).
  simpl in H. destruct i; discriminate.
Qed.

Lemma ascending_label_value (i : nat) (z : Z) :
  (1 <= i)%nat -> nth_error frequency_scores (i - 1) = Some z -> z = Z.of_nat i.
Proof.
  intros Hi H.
  do 6 (destruct i as [|i]; [simpl in H; try lia; injection H as <-; reflexivity |]).
  simpl in H. destruct i; discriminate.
Qed.

Lemma descending_cut_mono (bins : list Q) (x y : Q) (zx zy : Z) :
  (x <= y)%Q ->
  take_label recency_scores bins (Some x) = Some zx ->
  take_label recency_scores bins (Some y) = Some zy -> zy <= zx.
Proof.
  intros Hxy Hx Hy.
  destruct (take_label_bin _ _ _ _ Hx) as (i & Hi & Hipos & Hzx).
  destruct (take_label_bin _ _ _ _ Hy) as (j & Hj & Hjpos & Hzy).
  pose proof (bin_id_mono bins x y i j Hxy Hi Hj).
  rewrite (recency_label_value i zx Hipos Hzx), (recency_label_value j zy Hjpos Hzy).
  lia.
Qed.

Lemma ascending_cut_mono (bins : list Q) (x y : Q) (zx zy : Z) :
  (x <= y)%Q ->
  take_label frequency_scores bins (Some x) = Some zx ->
  take_label frequency_scores bins (Some y) = Some zy -> zx <= zy.
Proof.
  intros Hxy Hx Hy.
  destruct (take_label_bin _ _ _ _ Hx) as (i & Hi & Hipos & Hzx).
  destruct (take_label_bin _ _ _ _ Hy) as (j & Hj & Hjpos & Hzy).
  pose proof (bin_id_mono bins x y i j Hxy Hi Hj).
  rewrite (ascending_label_value i zx Hipos Hzx), (ascending_label_value j zy Hjpos Hzy).
  lia.
Qed.

(** C4.  Within one run the quantile scores are monotone over all rows: a
    strictly larger Recency never gets a strictly larger RecencyScore, and a
    strictly larger Frequency or MonetaryValue never gets a strictly smaller
    FrequencyScore or MonetaryScore. *)
Theorem quantile_scores_monotone (now : Z) (data : list Txn) (out : list Scored)
        (r1 r2 : Scored) :
  pipeline now data = Ok out -> In r1 out -> In r2 out ->
  (Recency (measured r1) < Recency (measured r2) -> RecencyScore r2 <= RecencyScore r1)
  /\ (forall f1 f2, Frequency (measured r1) = Some f1 ->
                    Frequency (measured r2) = Some f2 ->
                    f1 < f2 -> FrequencyScore r1 <= FrequencyScore r2)
  /\ (forall m1 m2, MonetaryValue (measured r1) = Some m1 ->
                    MonetaryValue (measured r2) = Some m2 ->
                    (m1 < m2)%Q -> MonetaryScore r1 <= MonetaryScore r2).
Proof.
  intros H H1 H2.
  destruct (pipeline_rows now data out H) as [_ Hrows].
  destruct (Hrows r1 H1) as (_ & _ & HR1 & HF1 & HM1).
  destruct (Hrows r2 H2) as (_ & _ & HR2 & HF2 & HM2).
  split; [| split].
  - intros Hlt. unfold Recency_label in HR1, HR2.
    refine (descending_cut_mono _ _ _ _ _ _ HR1 HR2).
    rewrite <- Zle_Qle. lia.
  - intros f1 f2 E1 E2 Hlt. unfold Frequency_label in HF1, HF2.
    rewrite E1 in HF1. rewrite E2 in HF2. simpl in HF1, HF2.
    refine (ascending_cut_mono _ _ _ _ _ _ HF1 HF2).
    rewrite <- Zle_Qle. lia.
  - intros m1 m2 E1 E2 Hlt. unfold MonetaryValue_label in HM1, HM2.
    rewrite E1 in HM1. rewrite E2 in HM2.
    refine (ascending_cut_mono _ _ _ _ _ _ HM1 HM2).
    now apply Qlt_le_weak.
Qed.

Lemma quantile_scores_monotone_witness :
  map (fun r => (Recency (measured r), RecencyScore r, Frequency (measured r),
                 FrequencyScore r, MonetaryValue (measured r), MonetaryScore r))
      [ nth 3 (Sample.run_of Sample.shop_a) Sample.no_row;
        nth 14 (Sample.run_of Sample.shop_a) Sample.no_row ]
  = [ (1, 5, Some 2, 1, Some 45%Q, 3); (11, 1, Some 4, 5, Some 53%Q, 5) ]
  /\ RecencyScore (nth 14 (Sample.run_of Sample.shop_a) Sample.no_row)
     <= RecencyScore (nth 3 (Sample.run_of Sample.shop_a) Sample.no_row)
  /\ FrequencyScore (nth 3 (Sample.run_of Sample.shop_a) Sample.no_row)
     <= FrequencyScore (nth 14 (Sample.run_of Sample.shop_a) Sample.no_row)
  /\ MonetaryScore (nth 3 (Sample.run_of Sample.shop_a) Sample.no_row)
     <= MonetaryScore (nth 14 (Sample.run_of Sample.shop_a) Sample.no_row).
Proof.
  split; [vm_compute; reflexivity |].
  destruct (quantile_scores_monotone Sample.now Sample.shop_a
              (Sample.run_of Sample.shop_a)
              (nth 3 (Sample.run_of Sample.shop_a) Sample.no_row)
              (nth 14 (Sample.run_of Sample.shop_a) Sample.no_row))
    as (HR & HF & HM).
  - exact shop_a_runs.
  - apply nth_In. vm_compute. lia.
  - apply nth_In. vm_compute. lia.
  - split; [apply HR; vm_compute; reflexivity |].
    split.
    + apply (HF 2 4); vm_compute; reflexivity.
    + apply (HM 45%Q 53%Q); vm_compute; reflexivity.
Defined.

(** ** Failing cuts *)



Example shop_flat_error :
  exists bins, pipeline Sample.now Sample.shop_flat
               = Raise (ValueError_bin_edges "MonetaryValue" bins).
Proof. eexists. vm_compute. reflexivity. Qed.

(** C10.  The 3-bin cut of RFM_Score is a fourth place where a run can
    raise: on [shop_b] the three measure cuts succeed and the run raises the
    bin-edges error for RFM_Score. *)
Theorem rfm_score_cut_can_raise :
  exists now data,
    let table := derive_measures now data in
    (exists c, qcut (Recency_col table) 5 recency_scores = Ok c)
    /\ (exists c, qcut (Frequency_col table) 5 frequency_scores = Ok c)
    /\ (exists c, qcut (MonetaryValue_col table) 5 monetary_scores = Ok c)
    /\ exists bins, pipeline now data = Raise (ValueError_bin_edges "RFM_Score" bins)
                    /\ (length (unique bins) < length bins)%nat.
Proof.
  exists Sample.now, Sample.shop_b. cbv zeta.
  split; [eexists; vm_compute; reflexivity |].
  split; [eexists; vm_compute; reflexivity |].
  split; [eexists; vm_compute; reflexivity |].
  eexists. split; [vm_compute; reflexivity |]. vm_compute. lia.
Qed.

Example shop_b_scores :
  map (rfm_of (derive_measures Sample.now Sample.shop_b))
      (derive_measures Sample.now Sample.shop_b)
  = [6; 4; 8; 9; 9; 10; 9; 5; 9; 8; 9; 13; 9; 9; 9; 12; 9].
Proof. vm_compute. reflexivity. Qed.

(** ** The Champions views *)




(** ** Reruns *)



(** ** The value tier *)

Lemma segment_of_nonempty (s : Z) : segment_of s <> EmptyString.
Proof.
  destruct (segment_of_table s) as (T1 & T2 & T3 & T4 & T5).
  assert (Hcases : 9 <= s \/ 6 <= s < 9 \/ s = 5 \/ s = 4 \/ s < 4) by lia.
  destruct Hcases as [C | [C | [C | [C | C]]]];
    [rewrite (T1 C) | rewrite (T2 C) | rewrite (T3 C) | rewrite (T4 C) | rewrite (T5 C)];
    discriminate.
Qed.

(** The tier of a row: its bin among the tercile edges of the RFM_Score
    column of the same table. *)
Lemma value_segment_bin (now : Z) (data : list Txn) (out : list Scored) (r : Scored) :
  pipeline now data = Ok out -> In r out ->
  let edges := RFM_Score_edges (map RFM_Score out) in
  Value_Segment r = take_label segment_labels edges (Some (inject_Z (RFM_Score r)))
  /\ exists i, bin_id edges (inject_Z (RFM_Score r)) = Some (S i)
               /\ (i < 3)%nat
               /\ Value_Segment r = nth_error segment_labels i.
Proof.
  intros H Hr edges.
  pose proof (pipeline_RFM_Score_column now data out H) as Hcol.
  destruct (pipeline_rows now data out H) as [_ Hrows].
  destruct (Hrows r Hr) as (Hd & Hrow & _).
  set (table := derive_measures now data) in *.
  assert (Hv : Value_Segment r
               = take_label segment_labels edges (Some (inject_Z (RFM_Score r)))).
  { pose proof (f_equal Value_Segment Hrow) as E1.
    pose proof (f_equal RFM_Score Hrow) as E2.
    cbn [Value_Segment RFM_Score score_row] in E1, E2.
    unfold edges. rewrite Hcol, E2. exact E1. }
  split; [exact Hv |].
  assert (Htot : take_label segment_labels edges (Some (inject_Z (RFM_Score r)))
                 <> None).
  { unfold edges, RFM_Score_edges. apply take_label_total; [lia | reflexivity |].
    unfold RFM_Score_col. cbn [values].
    exact (in_map (fun s => Some (inject_Z s)) _ _ (in_map RFM_Score out r Hr)). }
  destruct (take_label segment_labels edges (Some (inject_Z (RFM_Score r))))
    as [z|] eqn:E; [| congruence].
  destruct (take_label_bin _ _ _ _ E) as (i & Hi & Hipos & Hz).
  destruct i as [|i]; [lia |]. simpl in Hz. rewrite Nat.sub_0_r in Hz.
  exists i. split; [exact Hi |]. split.
  - change 3%nat with (length segment_labels). apply nth_error_Some. congruence.
  - rewrite Hz. exact Hv.
Qed.

(** C8.  Value Segment comes from its own 3-bin quantile cut of RFM_Score:
    each row gets the label of its bin among the tercile edges of the
    RFM_Score column, the labels Low-Value, Mid-Value, High-Value following
    the bins in ascending score order.  Every row carries this tier together
    with its threshold segment, and the tier is not determined by the
    threshold segment: in the sample run two Champions rows are Mid-Value and
    High-Value. *)
Theorem value_segment_is_separate_cut :
  (forall (now : Z) (data : list Txn) (out : list Scored) (r1 r2 : Scored),
      pipeline now data = Ok out -> In r1 out -> In r2 out ->
      let edges := RFM_Score_edges (map RFM_Score out) in
      Value_Segment r1
      = take_label segment_labels edges (Some (inject_Z (RFM_Score r1)))
      /\ (exists i1 i2,
             Value_Segment r1 = nth_error segment_labels i1
             /\ Value_Segment r2 = nth_error segment_labels i2
             /\ (i1 < 3)%nat /\ (i2 < 3)%nat
             /\ (RFM_Score r1 <= RFM_Score r2 -> (i1 <= i2)%nat))
      /\ RFM_Customer_Segments r1 = segment_of (RFM_Score r1)
      /\ RFM_Customer_Segments r1 <> EmptyString)
  /\ (exists (now : Z) (data : list Txn) (out : list Scored) (r1 r2 : Scored),
         pipeline now data = Ok out /\ In r1 out /\ In r2 out
         /\ RFM_Customer_Segments r1 = "Champions"%string
         /\ RFM_Customer_Segments r2 = "Champions"%string
         /\ Value_Segment r1 = Some "Mid-Value"%string
         /\ Value_Segment r2 = Some "High-Value"%string).
Proof.
  split.
  - intros now data out r1 r2 H H1 H2 edges.
    destruct (value_segment_bin now data out r1 H H1) as (Hv1 & i1 & Hb1 & Hi1 & Hl1).
    destruct (value_segment_bin now data out r2 H H2) as (_ & i2 & Hb2 & Hi2 & Hl2).
    fold edges in Hv1, Hb1, Hb2.
    split; [exact Hv1 |]. split.
    + exists i1, i2. repeat (split; [assumption |]).
      intros Hle.
      assert (Hq : (inject_Z (RFM_Score r1) <= inject_Z (RFM_Score r2))%Q)
        by (rewrite <- Zle_Qle; exact Hle).
      pose proof (bin_id_mono edges _ _ _ _ Hq Hb1 Hb2). lia.
    + destruct (pipeline_rows now data out H) as [_ Hrows].
      destruct (Hrows r1 H1) as (_ & Hrow & _).
      assert (Hseg : RFM_Customer_Segments r1 = segment_of (RFM_Score r1))
        by (rewrite Hrow; reflexivity).
      split; [exact Hseg |]. rewrite Hseg. apply segment_of_nonempty.
  - exists Sample.now, Sample.shop_a, (Sample.run_of Sample.shop_a),
      (nth 3 (Sample.run_of Sample.shop_a) Sample.no_row),
      (nth 7 (Sample.run_of Sample.shop_a) Sample.no_row).
    split; [exact shop_a_runs |].
    split; [apply nth_In; vm_compute; lia |].
    split; [apply nth_In; vm_compute; lia |].
    repeat split; vm_compute; reflexivity.
Qed.

Lemma value_segment_is_separate_cut_witness :
  Value_Segment (nth 3 (Sample.run_of Sample.shop_a) Sample.no_row)
  = take_label segment_labels
               (RFM_Score_edges (map RFM_Score (Sample.run_of Sample.shop_a)))
               (Some (inject_Z (RFM_Score (nth 3 (Sample.run_of Sample.shop_a)
                                               Sample.no_row)))).
Proof.
  destruct value_segment_is_separate_cut as [Hall _].
  apply (Hall Sample.now Sample.shop_a (Sample.run_of Sample.shop_a)
              (nth 3 (Sample.run_of Sample.shop_a) Sample.no_row)
              (nth 7 (Sample.run_of Sample.shop_a) Sample.no_row)).
  - exact shop_a_runs.
  - apply nth_In. vm_compute. lia.
  - apply nth_In. vm_compute. lia.
Defined.

Example shop_a_tiers :
  RFM_Score_edges (map RFM_Score (Sample.run_of Sample.shop_a))
  = [15 # 3; 24 # 3; 27 # 3; 42 # 3]
  /\ map (fun r => (RFM_Score r, Value_Segment r, RFM_Customer_Segments r))
         (Sample.run_of Sample.shop_a)
     = [ (7, Some "Low-Value", "Potential Loyalists");
         (5, Some "Low-Value", "At Risk Customers");
         (7, Some "Low-Value", "Potential Loyalists");
         (9, Some "Mid-Value", "Champions");
         (8, Some "Low-Value", "Potential Loyalists");
         (5, Some "Low-Value", "At Risk Customers");
         (6, Some "Low-Value", "Potential Loyalists");
         (10, Some "High-Value", "Champions");
         (8, Some "Low-Value", "Potential Loyalists");
         (9, Some "Mid-Value", "Champions");
         (9, Some "Mid-Value", "Champions");
         (9, Some "Mid-Value", "Champions");
         (9, Some "Mid-Value", "Champions");
         (14, Some "High-Value", "Champions");
         (11, Some "High-Value", "Champions");
         (11, Some "High-Value", "Champions");
         (14, Some "High-Value", "Champions") ]%string.
Proof. split; vm_compute; reflexivity. Qed.

(** * Further properties of the script *)

(** ** Rows, outcomes and the aggregate tables *)

Lemma derive_measures_txn (now : Z) (data : list Txn) :
  map txn (derive_measures now data) = data.
Proof.
  rewrite derive_measures_rows, map_map. simpl. apply map_id.
Qed.

(** X1.  A successful run returns one segmented row per uploaded row, in the
    order of the upload, each carrying its uploaded row unchanged: the two
    merges neither drop nor repeat rows. *)
Theorem upload_rows_kept (now : Z) (data : list Txn) (out : list Scored) :
  pipeline now data = Ok out ->
  map (fun r => txn (measured r)) out = data /\ length out = length data.
Proof.
  intros H. destruct (pipeline_rows now data out H) as [Hout _].
  assert (Hm : map (fun r => txn (measured r)) out = data).
  { rewrite Hout, map_map. simpl. apply derive_measures_txn. }
  split; [exact Hm |]. rewrite <- Hm. now rewrite length_map.
Qed.

Lemma upload_rows_kept_witness :
  map (fun r => txn (measured r)) (Sample.run_of Sample.shop_a) = Sample.shop_a
  /\ length (Sample.run_of Sample.shop_a) = length Sample.shop_a.
Proof.
  apply (upload_rows_kept Sample.now). exact shop_a_runs.
Defined.



(** X3.  On every row, Frequency is at least 1 and at most the number of
    uploaded rows. *)
Theorem frequency_bounds (now : Z) (data : list Txn) (d : Measured) :
  In d (derive_measures now data) ->
  exists f, Frequency d = Some f /\ 1 <= f <= Z.of_nat (length data).
Proof.
  intros H. destruct (measured_row now data d H) as (Ht & _ & Hf & _).
  eexists. split; [exact Hf |]. unfold count, customer_rows. split.
  - assert (Hin : In (txn d) (filter (fun t => CustomerID t =? CustomerID (txn d)) data)).
    { apply filter_In. split; [exact Ht | apply Z.eqb_refl]. }
    destruct (filter _ data); [contradiction | simpl length; lia].
  - apply inj_le, filter_length_le.
Qed.

Lemma frequency_bounds_witness :
  exists f, Frequency (nth 8 (derive_measures Sample.now Sample.shop_a)
                           (measured Sample.no_row)) = Some f
            /\ 1 <= f <= 17.
Proof.
  apply (frequency_bounds Sample.now Sample.shop_a).
  apply nth_In. vm_compute. lia.
Defined.

(** Sums of rationals. *)
Lemma fold_left_Qplus_acc (l : list Q) (a : Q) :
  (fold_left Qplus l a == a + fold_left Qplus l 0)%Q.
Proof.
  revert a; induction l as [|x l IH]; intros a; simpl.
  - ring.
  - rewrite (IH (a + x)%Q), (IH (0 + x)%Q). ring.
Qed.

Lemma sum_cons (x : Q) (l : list Q) : (sum (x :: l) == x + sum l)%Q.
Proof.
  unfold sum. simpl. rewrite fold_left_Qplus_acc. ring.
Qed.

Lemma sum_nil : sum [] = 0%Q.
Proof. reflexivity. Qed.

Lemma sum_map_add {A : Type} (f g : A -> Q) (l : list A) :
  (sum (map (fun a => f a + g a) l) == sum (map f l) + sum (map g l))%Q.
Proof.
  induction l as [|a l IH]; simpl map.
  - rewrite !sum_nil. ring.
  - rewrite !sum_cons, IH. ring.
Qed.

Lemma sum_map_ext {A : Type} (f g : A -> Q) (l : list A) :
  (forall a, In a l -> (f a == g a)%Q) -> (sum (map f l) == sum (map g l))%Q.
Proof.
  induction l as [|a l IH]; intros H; simpl map; [reflexivity |].
  rewrite !sum_cons, IH.
  - rewrite (H a); [reflexivity | now left].
  - intros b Hb. apply H. now right.
Qed.








(** The tables joined on lines 36-37 are [frequency_data] and
    [monetary_data]: the Recency column the rows carry by then plays no part. *)
Lemma joined_frequency_data (now : Z) (data : list Txn) :
  groupby (fun r : Txn * Z => CustomerID (fst r))
          (fun g => count (map (fun r : Txn * Z => OrderID (fst r)) g))
          (map (fun t => (t, days_between now (PurchaseDate t))) data)
  = Views.frequency_data data.
Proof.
  unfold Views.frequency_data, groupby, group_keys. rewrite map_map. simpl.
  apply map_ext. intros k. rewrite filter_map_comm. unfold count.
  now rewrite !length_map.
Qed.

Lemma joined_monetary_data (now : Z) (data : list Txn) :
  groupby (fun r : Txn * Z => CustomerID (fst r))
          (fun g => sum (map (fun r : Txn * Z => TransactionAmount (fst r)) g))
          (map (fun t => (t, days_between now (PurchaseDate t))) data)
  = Views.monetary_data data.
Proof.
  unfold Views.monetary_data, groupby, group_keys. rewrite map_map. simpl.
  apply map_ext. intros k. rewrite filter_map_comm, map_map. reflexivity.
Qed.


Lemma aggregate_tables_example :
  Views.frequency_data Sample.shop_a
  = [(1, 1); (2, 2); (3, 2); (4, 2); (5, 3); (6, 3); (7, 4)]
  /\ map snd (Views.monetary_data Sample.shop_a)
     = [2; 41; 45; 40; 50; 9; 53]%Q.
Proof. split; vm_compute; reflexivity. Qed.

(** X5.  The merges look every row's customer up in the two per-customer
    tables: the row's Frequency and MonetaryValue are the cells of its
    CustomerID there, and the lookup never misses. *)
Theorem merged_cells_from_tables (now : Z) (data : list Txn) (d : Measured) :
  In d (derive_measures now data) ->
  exists f m,
    Frequency d = Some f /\ MonetaryValue d = Some m
    /\ In (CustomerID (txn d), f) (Views.frequency_data data)
    /\ In (CustomerID (txn d), m) (Views.monetary_data data).
Proof.
  intros H. destruct (measured_row now data d H) as (Ht & _ & Hf & Hm).
  do 2 eexists. split; [exact Hf |]. split; [exact Hm |].
  assert (Hk : In (CustomerID (txn d)) (group_keys CustomerID data))
    by (apply group_keys_In; now apply in_map).
  unfold Views.frequency_data, Views.monetary_data, groupby, customer_rows, count.
  split.
  - apply in_map_iff. exists (CustomerID (txn d)). split; [| exact Hk].
    now rewrite length_map.
  - apply in_map_iff. exists (CustomerID (txn d)). split; [reflexivity | exact Hk].
Qed.

Lemma merged_cells_from_tables_witness :
  exists f m,
    Frequency (nth 8 (derive_measures Sample.now Sample.shop_a)
                   (measured Sample.no_row)) = Some f
    /\ MonetaryValue (nth 8 (derive_measures Sample.now Sample.shop_a)
                          (measured Sample.no_row)) = Some m
    /\ In (5, f) (Views.frequency_data Sample.shop_a)
    /\ In (5, m) (Views.monetary_data Sample.shop_a).
Proof.
  apply (merged_cells_from_tables Sample.now Sample.shop_a).
  apply nth_In. vm_compute. lia.
Defined.

(** ** Where the bin edges lie *)

(** The virtual index of a quantile stays inside the column. *)
Lemma virtual_index_range (n : Z) (k q : nat) :
  1 <= n -> (k <= q)%nat -> (1 <= q)%nat ->
  (0 <= inject_Z (n - 1) * (Z.of_nat k # Pos.of_nat q))%Q
  /\ (inject_Z (n - 1) * (Z.of_nat k # Pos.of_nat q) <= inject_Z (n - 1))%Q.
Proof.
  intros Hn Hk Hq.
  assert (Hz : Z.pos (Pos.of_nat q) = Z.of_nat q).
  { destruct q as [|q']; [lia |]. rewrite <- Pos.of_nat_succ. lia. }
  unfold Qle, Qmult, inject_Z. simpl Qnum. simpl Qden.
  rewrite ?Pos.mul_1_l, ?Hz. split; nia.
Qed.

(** An interpolated value lies between any two bounds of the column. *)
Lemma lerp_at_bounds (s : list Q) (h lo hi : Q) :
  s <> [] -> (forall x, In x s -> (lo <= x <= hi)%Q) ->
  (0 <= h)%Q -> (h <= inject_Z (Z.of_nat (length s) - 1))%Q ->
  (lo <= lerp_at s h <= hi)%Q.
Proof.
  intros Hs Hall H0 Hn. unfold lerp_at.
  assert (Hlen : (0 < length s)%nat) by (destruct s; [congruence | simpl; lia]).
  assert (Hf0 : 0 <= Qfloor h).
  { change 0 with (Qfloor 0). now apply Qfloor_resp_le. }
  assert (Hfn : Qfloor h <= Z.of_nat (length s) - 1).
  { rewrite <- (Qfloor_Z (Z.of_nat (length s) - 1)). now apply Qfloor_resp_le. }
  assert (Ha : In (nth (Z.to_nat (Qfloor h)) s 0%Q) s) by (apply nth_In; lia).
  assert (Hb : In (nth (Nat.min (Z.to_nat (Qfloor h) + 1) (length s - 1)) s 0%Q) s)
    by (apply nth_In; lia).
  destruct (Hall _ Ha) as [Ha1 Ha2]. destruct (Hall _ Hb) as [Hb1 Hb2].
  set (a := nth (Z.to_nat (Qfloor h)) s 0%Q) in *.
  set (b := nth (Nat.min (Z.to_nat (Qfloor h) + 1) (length s - 1)) s 0%Q) in *.
  set (g := (h - inject_Z (Qfloor h))%Q).
  assert (Hg0 : (0 <= g)%Q) by (unfold g; pose proof (Qfloor_le h); lra).
  assert (Hg1 : (g <= 1)%Q).
  { unfold g. pose proof (Qlt_floor h) as Hlt. rewrite inject_Z_plus in Hlt.
    change (inject_Z 1) with 1%Q in Hlt. lra. }
  assert (E : (a + g * (b - a) == (1 - g) * a + g * b)%Q) by ring.
  rewrite E.
  assert (P1 : (0 <= (1 - g) * (a - lo))%Q) by (apply Qmult_le_0_compat; lra).
  assert (P2 : (0 <= g * (b - lo))%Q) by (apply Qmult_le_0_compat; lra).
  assert (P3 : (0 <= (1 - g) * (hi - a))%Q) by (apply Qmult_le_0_compat; lra).
  assert (P4 : (0 <= g * (hi - b))%Q) by (apply Qmult_le_0_compat; lra).
  split.
  - assert (E1 : ((1 - g) * a + g * b - lo == (1 - g) * (a - lo) + g * (b - lo))%Q)
      by ring.
    lra.
  - assert (E2 : (hi - ((1 - g) * a + g * b) == (1 - g) * (hi - a) + g * (hi - b))%Q)
      by ring.
    lra.
Qed.

Lemma In_linspace (q : nat) (p : Q) :
  In p (linspace q) -> exists k, (k <= q)%nat /\ p = (Z.of_nat k # Pos.of_nat q).
Proof.
  unfold linspace. intros H. apply in_map_iff in H. destruct H as (k & <- & Hk).
  apply in_seq in Hk. exists k. split; [lia | reflexivity].
Qed.

(** Every edge of a cut lies between any two bounds of the column's values. *)
Lemma quantile_edges_between (x : list (option Q)) (q : nat) (lo hi : Q) (e : option Q) :
  (1 <= q)%nat -> (forall v, In (Some v) x -> (lo <= v <= hi)%Q) ->
  In e (quantile_edges x q) ->
  match e with
  | Some v => (lo <= v <= hi)%Q
  | None => dropna x = []
  end.
Proof.
  intros Hq Hall He. unfold quantile_edges in He.
  apply in_map_iff in He. destruct He as (p & <- & Hp).
  destruct (In_linspace q p Hp) as (k & Hk & ->).
  set (s := isort Qle_bool (dropna x)).
  assert (Hperm : Permutation s (dropna x)) by apply isort_perm.
  destruct s as [|a s'] eqn:Es.
  - simpl. now apply Permutation_nil.
  - rewrite quantile_cons. rewrite <- Es in *.
    assert (Hne : s <> []) by (rewrite Es; discriminate).
    assert (Hlen : 1 <= Z.of_nat (length s)) by (rewrite Es; simpl length; lia).
    destruct (virtual_index_range (Z.of_nat (length s)) k q Hlen Hk Hq) as [H0 Hn].
    apply lerp_at_bounds; try assumption.
    intros v Hv. apply Hall, In_dropna. now apply (Permutation_in _ Hperm).
Qed.

Lemma unique_incl (l : list (option Q)) (a : option Q) :
  In a (unique l) -> In a l.
Proof.
  revert a; induction l as [|x l IH]; intros a; simpl; [tauto |].
  intros [-> | H]; [now left |]. apply filter_In in H. right. apply IH, H.
Qed.

Lemma filter_none {A : Type} (p : A -> bool) (l : list A) :
  (forall a, In a l -> p a = false) -> filter p l = [].
Proof.
  induction l as [|a l IH]; intros H; simpl; [reflexivity |].
  rewrite (H a) by now left. apply IH. intros b Hb. apply H. now right.
Qed.

(** Edges that are all equal collapse to at most one. *)
Lemma unique_all_equal (l : list (option Q)) :
  (forall a b, In a l -> In b l -> cell_eqb a b = true) ->
  (length (unique l) <= 1)%nat.
Proof.
  destruct l as [|x l]; intros H; simpl; [lia |].
  rewrite filter_none; [simpl; lia |].
  intros y Hy. apply unique_incl in Hy.
  rewrite (H x y); [reflexivity | now left | now right].
Qed.

(** ** Columns that cannot be cut *)

Lemma constant_edges_equal (x : list (option Q)) (q : nat) (a b : option Q) :
  (1 <= q)%nat -> Views.constant x ->
  In a (quantile_edges x q) -> In b (quantile_edges x q) -> cell_eqb a b = true.
Proof.
  intros Hq Hc Ha Hb.
  destruct (dropna x) as [|c l] eqn:E.
  - assert (Hnone : forall e, In e (quantile_edges x q) -> e = None).
    { intros e He. unfold quantile_edges in He. rewrite E in He. simpl in He.
      apply in_map_iff in He. destruct He as (p & <- & _). reflexivity. }
    rewrite (Hnone a Ha), (Hnone b Hb). reflexivity.
  - assert (Hcin : In (Some c) x) by (apply In_dropna; rewrite E; now left).
    assert (Hall : forall v, In (Some v) x -> (c <= v <= c)%Q).
    { intros v Hv. pose proof (Hc c v Hcin Hv) as Heq. rewrite Heq.
      split; apply Qle_refl. }
    pose proof (quantile_edges_between x q c c a Hq Hall Ha) as Ha'.
    pose proof (quantile_edges_between x q c c b Hq Hall Hb) as Hb'.
    destruct a as [va|]; [| rewrite E in Ha'; discriminate].
    destruct b as [vb|]; [| rewrite E in Hb'; discriminate].
    simpl. apply Qeq_bool_iff.
    assert (va == c)%Q by (apply Qle_antisym; tauto).
    assert (vb == c)%Q by (apply Qle_antisym; tauto).
    now rewrite H, H0.
Qed.

(** X6.  [qcut] into two or more bins raises the bin-edges error on every
    column whose values are all equal, and on a column without values. *)
Theorem qcut_constant_column_raises {L : Type} (x : Series (option Q)) (q : nat)
        (labels : list L) :
  Views.constant (values x) -> (2 <= q)%nat -> length labels = q ->
  qcut x q labels = Raise (ValueError_bin_edges (name x) (quantile_edges (values x) q)).
Proof.
  intros Hc Hq Hlab.
  destruct (qcut_cases x q labels Hq Hlab) as [[_ H] | [Hge _]]; [exact H |].
  exfalso.
  pose proof (unique_all_equal (quantile_edges (values x) q)
                (fun a b => constant_edges_equal (values x) q a b ltac:(lia) Hc)) as Hle.
  rewrite quantile_edges_length in Hge. lia.
Qed.

Lemma qcut_constant_column_raises_witness :
  qcut (mkSeries "Frequency" [Some 1; Some 1; Some 1]%Q) 5 frequency_scores
  = Raise (ValueError_bin_edges "Frequency"
             (quantile_edges [Some 1; Some 1; Some 1]%Q 5)).
Proof.
  apply (qcut_constant_column_raises (mkSeries "Frequency" [Some 1; Some 1; Some 1]%Q)).
  - intros x y Hx Hy. simpl in Hx, Hy.
    destruct Hx as [Hx | [Hx | [Hx | []]]], Hy as [Hy | [Hy | [Hy | []]]];
      injection Hx as <-; injection Hy as <-; reflexivity.
  - lia.
  - reflexivity.
Defined.

Lemma duplicate_edges_constant (x : list (option Q)) :
  Views.constant x -> duplicate_edges (quantile_edges x 5) = true.
Proof.
  intros Hc. unfold duplicate_edges. apply Nat.ltb_lt.
  pose proof (unique_all_equal (quantile_edges x 5)
                (fun a b => constant_edges_equal x 5 a b ltac:(lia) Hc)) as Hle.
  rewrite quantile_edges_length. lia.
Qed.

(** X7.  When every uploaded purchase is the same whole number of days old
    (in particular for an upload with no row or with one row), the run raises
    the bin-edges error for Recency. *)
Theorem same_day_upload_raises (now : Z) (data : list Txn) :
  (forall t1 t2, In t1 data -> In t2 data ->
                 days_between now (PurchaseDate t1) = days_between now (PurchaseDate t2)) ->
  pipeline now data
  = Raise (ValueError_bin_edges "Recency"
             (quantile_edges (values (Recency_col (derive_measures now data))) 5)).
Proof.
  intros Hsame. unfold pipeline.
  rewrite (score_outcome _ (derive_measures_complete now data)).
  rewrite duplicate_edges_constant; [reflexivity |].
  intros x y Hx Hy. simpl in Hx, Hy.
  apply in_map_iff in Hx. destruct Hx as (d1 & E1 & H1).
  apply in_map_iff in Hy. destruct Hy as (d2 & E2 & H2).
  injection E1 as <-. injection E2 as <-.
  destruct (measured_row now data d1 H1) as (Ht1 & -> & _).
  destruct (measured_row now data d2 H2) as (Ht2 & -> & _).
  now rewrite (Hsame _ _ Ht1 Ht2).
Qed.



Ltac each_row H :=
  simpl in H; repeat (destruct H as [H | H]; [subst |]); try contradiction.

Lemma same_day_upload_raises_witness :
  pipeline Sample.now Uploads.one_purchase
  = Raise (ValueError_bin_edges "Recency"
             [Some (25 # 5); Some (25 # 5); Some (25 # 5); Some (25 # 5);
              Some (25 # 5); Some (25 # 5)])
  /\ pipeline Sample.now []
     = Raise (ValueError_bin_edges "Recency" [None; None; None; None; None; None]).
Proof.
  split.
  - rewrite (same_day_upload_raises Sample.now Uploads.one_purchase).
    + vm_compute. reflexivity.
    + intros t1 t2 H1 H2. each_row H1. each_row H2. reflexivity.
  - rewrite (same_day_upload_raises Sample.now []).
    + vm_compute. reflexivity.
    + intros t1 t2 H1. contradiction.
Defined.


Example single_orders_error :
  exists bins, pipeline Sample.now Uploads.single_orders
               = Raise (ValueError_bin_edges "Frequency" bins).
Proof. eexists. vm_compute. reflexivity. Qed.


(** ** The labels of the smallest and the largest value *)

Lemma unique_length_le (l : list (option Q)) : (length (unique l) <= length l)%nat.
Proof.
  induction l as [|x l IH]; simpl; [lia |].
  pose proof (filter_length_le (fun y => negb (cell_eqb x y)) (unique l)). lia.
Qed.

Lemma filter_full {A : Type} (p : A -> bool) (l : list A) :
  (length l <= length (filter p l))%nat ->
  filter p l = l /\ Forall (fun a => p a = true) l.
Proof.
  induction l as [|a l IH]; simpl; [intros _; split; [reflexivity | constructor] |].
  pose proof (filter_length_le p l) as Hle.
  destruct (p a) eqn:E; simpl; intros H.
  - destruct IH as [-> HF]; [lia |]. split; [reflexivity | now constructor].
  - lia.
Qed.

(** Edges that pass the uniqueness test are pairwise different. *)
Lemma unique_full (l : list (option Q)) :
  (length l <= length (unique l))%nat ->
  unique l = l /\ StronglySorted (fun a b => cell_eqb a b = false) l.
Proof.
  induction l as [|x l IH]; simpl; [intros _; split; [reflexivity | constructor] |].
  intros H.
  pose proof (filter_length_le (fun y => negb (cell_eqb x y)) (unique l)) as H1.
  pose proof (unique_length_le l) as H2.
  destruct IH as [IH1 IH2]; [lia |].
  destruct (filter_full (fun y => negb (cell_eqb x y)) (unique l)) as [F1 F2]; [lia |].
  rewrite F1, IH1. split; [reflexivity |].
  constructor; [exact IH2 |].
  rewrite IH1 in F2. eapply Forall_impl; [| exact F2].
  intros a Ha. simpl in Ha. now apply negb_true_iff in Ha.
Qed.

Lemma sorted_before_last {A : Type} (R : A -> A -> Prop) (l : list A) (z : A) :
  StronglySorted R (l ++ [z]) -> Forall (fun a => R a z) l.
Proof.
  induction l as [|a l IH]; simpl; intros H; [constructor |].
  inversion H as [|? ? Hs Ha]; subst. constructor.
  - rewrite Forall_forall in Ha. apply Ha, in_or_app. right. now left.
  - now apply IH.
Qed.

Lemma searchsorted_left_at_last (front : list Q) (last x : Q) :
  Forall (fun e => (e < x)%Q) front -> (x <= last)%Q ->
  searchsorted_left (front ++ [last]) x = length front.
Proof.
  intros HF Hl. induction HF as [|e front He _ IH]; simpl.
  - apply Qle_bool_iff in Hl. now rewrite Hl.
  - destruct (Qle_bool x e) eqn:E.
    + apply Qle_bool_iff in E. exfalso. exact (Qlt_not_le _ _ He E).
    + now rewrite IH.
Qed.

Lemma bin_id_at_last (front : list Q) (last x : Q) :
  front <> [] -> Forall (fun e => (e < x)%Q) front -> (x <= last)%Q ->
  bin_id (front ++ [last]) x = Some (length front).
Proof.
  intros Hne HF Hl.
  pose proof (searchsorted_left_at_last front last x HF Hl) as Hss.
  destruct front as [|e front]; [congruence |].
  inversion HF as [|? ? He _]; subst.
  assert (Hq : Qeq_bool x e = false).
  { destruct (Qeq_bool x e) eqn:E; [| reflexivity].
    apply Qeq_bool_iff in E. rewrite E in He. exfalso. exact (Qlt_irrefl _ He). }
  unfold bin_id. rewrite Hss, <- app_comm_cons. rewrite Hq.
  cbn [length]. rewrite length_app. cbn [length].
  destruct (Nat.eqb_spec (S (length front)) (S (length front + 1))); [lia |].
  reflexivity.
Qed.

(** The smallest value of a column falls into the first bin. *)
Lemma cut_label_of_min {L : Type} (labels : list L) (x : list (option Q)) (q : nat)
      (v : Q) :
  (2 <= q)%nat -> Views.is_min x v ->
  take_label labels (dropna (quantile_edges x q)) (Some v) = nth_error labels 0.
Proof.
  intros Hq [Hv Hmin].
  assert (Hne : dropna x <> []).
  { intros E. apply In_dropna in Hv. rewrite E in Hv. contradiction. }
  destruct (quantile_edges_bounds x q ltac:(lia) Hne) as (bins & -> & Hlen & Hfirst & _).
  rewrite dropna_map_Some.
  destruct (sorted_column_bounds x v Hv) as [Hlo _].
  set (s := isort Qle_bool (dropna x)) in *.
  assert (Hs : In (nth 0 s 0%Q) s).
  { apply nth_In. destruct s eqn:Es; [| simpl; lia].
    exfalso. apply Hne. apply Permutation_nil. rewrite <- Es. apply isort_perm. }
  assert (Hs' : In (Some (nth 0 s 0%Q)) x).
  { apply In_dropna. revert Hs. apply Permutation_in, isort_perm. }
  assert (Heq : (v == nth 0 bins 0)%Q).
  { rewrite Hfirst. apply Qle_antisym; [now apply Hmin | exact Hlo]. }
  destruct bins as [|b0 bins]; [simpl in Hlen; lia |].
  simpl in Heq. apply Qeq_bool_iff in Heq.
  unfold take_label, bin_id. rewrite Heq. simpl length in *.
  destruct (Nat.eqb_spec 1 (S (length bins))); [lia |]. reflexivity.
Qed.

(** When the edges are all distinct, the largest value of a column falls
    into the last bin. *)
Lemma cut_label_of_max {L : Type} (labels : list L) (x : list (option Q)) (q : nat)
      (v : Q) :
  (2 <= q)%nat -> Views.is_max x v ->
  duplicate_edges (quantile_edges x q) = false ->
  take_label labels (dropna (quantile_edges x q)) (Some v) = nth_error labels (q - 1).
Proof.
  intros Hq [Hv Hmax] Hdup.
  assert (Hne : dropna x <> []).
  { intros E. apply In_dropna in Hv. rewrite E in Hv. contradiction. }
  pose proof (fun e => quantile_edges_between x q v v e ltac:(lia)) as Hbetween.
  unfold duplicate_edges in Hdup. apply Nat.ltb_ge in Hdup.
  destruct (unique_full _ Hdup) as [_ Hdistinct].
  destruct (quantile_edges_bounds x q ltac:(lia) Hne) as (bins & E & Hlen & _ & Hlast).
  rewrite E in *. rewrite dropna_map_Some.
  destruct (sorted_column_bounds x v Hv) as [_ Hhi].
  set (s := isort Qle_bool (dropna x)) in *.
  assert (Hupper : forall e, In e bins -> (e <= v)%Q).
  { intros e He.
    assert (Hall : forall w, In (Some w) x -> (nth 0 s 0 <= w <= v)%Q).
    { intros w Hw. split; [apply (sorted_column_bounds x w Hw) | now apply Hmax]. }
    exact (proj2 (quantile_edges_between x q _ v (Some e) ltac:(lia) Hall
                    ltac:(rewrite E; now apply in_map))). }
  assert (Hbne : bins <> []) by (intros ->; simpl in Hlen; lia).
  destruct (exists_last Hbne) as (front & z & Hbins).
  rewrite Hbins in *. clear Hbne.
  assert (Hflen : length front = q) by (rewrite length_app in Hlen; simpl in Hlen; lia).
  assert (Hz : nth q (front ++ [z]) 0%Q = z).
  { rewrite app_nth2 by lia. now replace (q - length front)%nat with 0%nat by lia. }
  rewrite Hz in Hlast.
  assert (Hlastv : (z == v)%Q).
  { rewrite Hlast. apply Qle_antisym; [| exact Hhi].
    rewrite <- Hlast. apply Hupper, in_or_app. right. now left. }
  assert (Hfront : Forall (fun e => (e < v)%Q) front).
  { rewrite map_app in Hdistinct. simpl map in Hdistinct.
    apply sorted_before_last in Hdistinct.
    apply Forall_forall. intros e He.
    rewrite Forall_forall in Hdistinct.
    specialize (Hdistinct (Some e) (in_map Some _ e He)). simpl in Hdistinct.
    apply Qeq_bool_neq in Hdistinct.
    assert (He' : (e <= v)%Q) by (apply Hupper, in_or_app; now left).
    apply Qle_lteq in He'. destruct He' as [Hlt | Heq]; [exact Hlt |].
    exfalso. apply Hdistinct. now rewrite Heq, Hlastv. }
  unfold take_label.
  rewrite bin_id_at_last; [now rewrite Hflen | | exact Hfront |].
  - intros E0. rewrite E0 in Hflen. simpl in Hflen. lia.
  - rewrite Hlastv. apply Qle_refl.
Qed.

Lemma pipeline_Ok_edges (now : Z) (data : list Txn) (out : list Scored) :
  pipeline now data = Ok out ->
  let table := derive_measures now data in
  duplicate_edges (quantile_edges (values (Recency_col table)) 5) = false
  /\ duplicate_edges (quantile_edges (values (Frequency_col table)) 5) = false
  /\ duplicate_edges (quantile_edges (values (MonetaryValue_col table)) 5) = false
  /\ duplicate_edges
       (quantile_edges (values (RFM_Score_col (map (rfm_of table) table))) 3) = false.
Proof.
  intros H table. unfold pipeline in H. fold table in H.
  rewrite (score_outcome table (derive_measures_complete now data)) in H.
  repeat match type of H with
         | (if ?b then _ else _) = _ => destruct b; [discriminate |]
         end.
  repeat split.
Qed.

Lemma table_row_in_out (now : Z) (data : list Txn) (out : list Scored) (d : Measured) :
  pipeline now data = Ok out -> In d (derive_measures now data) ->
  exists r, In r out /\ measured r = d.
Proof.
  intros H Hd. destruct (pipeline_rows now data out H) as [-> _].
  exists (score_row (derive_measures now data) d). split; [| reflexivity].
  now apply in_map.
Qed.

(** The rows with the smallest and the largest value of a measure. *)
Lemma extreme_scores_rows (now : Z) (data : list Txn) (out : list Scored)
        (r : Scored) :
  pipeline now data = Ok out -> In r out ->
  ((forall r', In r' out -> Recency (measured r) <= Recency (measured r')) ->
   RecencyScore r = 5)
  /\ ((forall r', In r' out -> Recency (measured r') <= Recency (measured r)) ->
      RecencyScore r = 1)
  /\ (forall f, Frequency (measured r) = Some f ->
        ((forall r' f', In r' out -> Frequency (measured r') = Some f' -> f <= f') ->
         FrequencyScore r = 1)
        /\ ((forall r' f', In r' out -> Frequency (measured r') = Some f' -> f' <= f) ->
            FrequencyScore r = 5))
  /\ (forall m, MonetaryValue (measured r) = Some m ->
        ((forall r' m', In r' out -> MonetaryValue (measured r') = Some m' -> (m <= m')%Q) ->
         MonetaryScore r = 1)
        /\ ((forall r' m', In r' out -> MonetaryValue (measured r') = Some m' ->
                           (m' <= m)%Q) ->
            MonetaryScore r = 5)).
Proof.
  intros H Hr.
  destruct (pipeline_rows now data out H) as [_ Hrows].
  destruct (Hrows r Hr) as (Hd & _ & HR & HF & HM).
  destruct (pipeline_Ok_edges now data out H) as (DR & DF & DM & _).
  set (table := derive_measures now data) in *.
  unfold Recency_label, Recency_edges in HR.
  unfold Frequency_label, Frequency_edges in HF.
  unfold MonetaryValue_label, MonetaryValue_edges in HM.
  assert (InR : In (Some (inject_Z (Recency (measured r)))) (values (Recency_col table)))
    by exact (in_map (fun d => Some (inject_Z (Recency d))) table _ Hd).
  assert (AllR : forall x, In (Some x) (values (Recency_col table)) ->
                   exists r', In r' out /\ x = inject_Z (Recency (measured r'))).
  { intros x Hx. simpl in Hx. apply in_map_iff in Hx. destruct Hx as (d & E & Hd').
    injection E as <-. destruct (table_row_in_out now data out d H Hd') as (r' & Hr' & <-).
    now exists r'. }
  split; [| split; [| split]].
  - intros Hmin. rewrite cut_label_of_min in HR; [simpl in HR; congruence | lia |].
    split; [exact InR |]. intros x Hx. destruct (AllR x Hx) as (r' & Hr' & ->).
    rewrite <- Zle_Qle. now apply Hmin.
  - intros Hmax. rewrite cut_label_of_max in HR; [simpl in HR; congruence | lia | | exact DR].
    split; [exact InR |]. intros x Hx. destruct (AllR x Hx) as (r' & Hr' & ->).
    rewrite <- Zle_Qle. now apply Hmax.
  - intros f Ef. rewrite Ef in HF. simpl option_map in HF.
    assert (InF : In (Some (inject_Z f)) (values (Frequency_col table))).
    { simpl. apply in_map_iff. exists (measured r). rewrite Ef. now split. }
    assert (AllF : forall x, In (Some x) (values (Frequency_col table)) ->
                     exists r' f', In r' out /\ Frequency (measured r') = Some f'
                                   /\ x = inject_Z f').
    { intros x Hx. simpl in Hx. apply in_map_iff in Hx. destruct Hx as (d & E & Hd').
      destruct (table_row_in_out now data out d H Hd') as (r' & Hr' & <-).
      destruct (Frequency (measured r')) as [f'|] eqn:E'; [| discriminate].
      simpl in E. injection E as <-. now exists r', f'. }
    split.
    + intros Hmin. rewrite cut_label_of_min in HF; [simpl in HF; congruence | lia |].
      split; [exact InF |]. intros x Hx. destruct (AllF x Hx) as (r' & f' & Hr' & E' & ->).
      rewrite <- Zle_Qle. now apply (Hmin r').
    + intros Hmax.
      rewrite cut_label_of_max in HF; [simpl in HF; congruence | lia | | exact DF].
      split; [exact InF |]. intros x Hx. destruct (AllF x Hx) as (r' & f' & Hr' & E' & ->).
      rewrite <- Zle_Qle. now apply (Hmax r').
  - intros m Em. rewrite Em in HM.
    assert (InM : In (Some m) (values (MonetaryValue_col table))).
    { simpl. apply in_map_iff. exists (measured r). now split. }
    assert (AllM : forall x, In (Some x) (values (MonetaryValue_col table)) ->
                     exists r', In r' out /\ MonetaryValue (measured r') = Some x).
    { intros x Hx. simpl in Hx. apply in_map_iff in Hx. destruct Hx as (d & E & Hd').
      destruct (table_row_in_out now data out d H Hd') as (r' & Hr' & <-).
      now exists r'. }
    split.
    + intros Hmin. rewrite cut_label_of_min in HM; [simpl in HM; congruence | lia |].
      split; [exact InM |]. intros x Hx. destruct (AllM x Hx) as (r' & Hr' & E').
      now apply (Hmin r').
    + intros Hmax.
      rewrite cut_label_of_max in HM; [simpl in HM; congruence | lia | | exact DM].
      split; [exact InM |]. intros x Hx. destruct (AllM x Hx) as (r' & Hr' & E').
      now apply (Hmax r').
Qed.

(** The rows with the smallest and the largest RFM_Score. *)
Lemma extreme_tiers_rows (now : Z) (data : list Txn) (out : list Scored)
        (r : Scored) :
  pipeline now data = Ok out -> In r out ->
  ((forall r', In r' out -> RFM_Score r <= RFM_Score r') ->
   Value_Segment r = Some "Low-Value"%string)
  /\ ((forall r', In r' out -> RFM_Score r' <= RFM_Score r) ->
      Value_Segment r = Some "High-Value"%string).
Proof.
  intros H Hr.
  destruct (value_segment_bin now data out r H Hr) as (Hv & _).
  destruct (pipeline_Ok_edges now data out H) as (_ & _ & _ & DV).
  rewrite <- (pipeline_RFM_Score_column now data out H) in DV.
  unfold RFM_Score_edges in Hv.
  assert (InV : In (Some (inject_Z (RFM_Score r))) (values (RFM_Score_col (map RFM_Score out)))).
  { simpl. apply in_map_iff. exists (RFM_Score r). split; [reflexivity |].
    now apply in_map. }
  assert (AllV : forall x, In (Some x) (values (RFM_Score_col (map RFM_Score out))) ->
                   exists r', In r' out /\ x = inject_Z (RFM_Score r')).
  { intros x Hx. simpl in Hx. apply in_map_iff in Hx. destruct Hx as (s & E & Hs).
    injection E as <-. apply in_map_iff in Hs. destruct Hs as (r' & <- & Hr').
    now exists r'. }
  split.
  - intros Hmin. rewrite Hv. rewrite cut_label_of_min; [reflexivity | lia |].
    split; [exact InV |]. intros x Hx. destruct (AllV x Hx) as (r' & Hr' & ->).
    rewrite <- Zle_Qle. now apply Hmin.
  - intros Hmax. rewrite Hv. rewrite cut_label_of_max; [reflexivity | lia | | exact DV].
    split; [exact InV |]. intros x Hx. destruct (AllV x Hx) as (r' & Hr' & ->).
    rewrite <- Zle_Qle. now apply Hmax.
Qed.

(** A non-empty table has a row with the smallest key and one with the
    largest. *)
Lemma exists_min_key {A : Type} (key : A -> Q) (l : list A) :
  l <> [] -> exists a, In a l /\ forall b, In b l -> (key a <= key b)%Q.
Proof.
  induction l as [|x l IH]; [congruence |]. intros _.
  destruct l as [|y l].
  - exists x. split; [now left |]. intros b [<- | []]. apply Qle_refl.
  - destruct IH as (a & Ha & Hmin); [discriminate |].
    destruct (Qlt_le_dec (key x) (key a)) as [Hlt | Hle].
    + exists x. split; [now left |]. intros b [<- | Hb]; [apply Qle_refl |].
      apply Qle_trans with (key a); [now apply Qlt_le_weak | now apply Hmin].
    + exists a. split; [now right |]. intros b [<- | Hb]; [exact Hle | now apply Hmin].
Qed.

Lemma exists_max_key {A : Type} (key : A -> Q) (l : list A) :
  l <> [] -> exists a, In a l /\ forall b, In b l -> (key b <= key a)%Q.
Proof.
  intros Hne. destruct (exists_min_key (fun a => (- key a)%Q) l Hne) as (a & Ha & Hmin).
  exists a. split; [exact Ha |]. intros b Hb. specialize (Hmin b Hb). lra.
Qed.

Lemma successful_table_nonempty (now : Z) (data : list Txn) (out : list Scored) :
  pipeline now data = Ok out -> out <> [].
Proof.
  intros H ->. destruct (pipeline_rows now data [] H) as [Hout _].
  symmetry in Hout. apply map_eq_nil in Hout.
  pose proof (derive_measures_txn now data) as Ht. rewrite Hout in Ht. simpl in Ht.
  subst data. vm_compute in H. discriminate.
Qed.

(** X10.  In the table of a successful run, a row whose Recency is the
    smallest of all rows has RecencyScore 5 and one whose Recency is the
    largest has RecencyScore 1; a row whose Frequency (MonetaryValue) is the
    smallest has FrequencyScore (MonetaryScore) 1 and one whose value is the
    largest has score 5.  So every successful table holds rows with
    RecencyScore, FrequencyScore and MonetaryScore 1 and rows with each of
    them 5. *)
Theorem extreme_values_extreme_scores (now : Z) (data : list Txn) (out : list Scored) :
  pipeline now data = Ok out ->
  (forall r, In r out ->
     ((forall r', In r' out -> Recency (measured r) <= Recency (measured r')) ->
      RecencyScore r = 5)
     /\ ((forall r', In r' out -> Recency (measured r') <= Recency (measured r)) ->
         RecencyScore r = 1)
     /\ (forall f, Frequency (measured r) = Some f ->
           ((forall r' f', In r' out -> Frequency (measured r') = Some f' -> f <= f') ->
            FrequencyScore r = 1)
           /\ ((forall r' f', In r' out -> Frequency (measured r') = Some f' -> f' <= f) ->
               FrequencyScore r = 5))
     /\ (forall m, MonetaryValue (measured r) = Some m ->
           ((forall r' m', In r' out -> MonetaryValue (measured r') = Some m' ->
                           (m <= m')%Q) ->
            MonetaryScore r = 1)
           /\ ((forall r' m', In r' out -> MonetaryValue (measured r') = Some m' ->
                              (m' <= m)%Q) ->
               MonetaryScore r = 5)))
  /\ (exists r, In r out /\ RecencyScore r = 5)
  /\ (exists r, In r out /\ RecencyScore r = 1)
  /\ (exists r, In r out /\ FrequencyScore r = 1)
  /\ (exists r, In r out /\ FrequencyScore r = 5)
  /\ (exists r, In r out /\ MonetaryScore r = 1)
  /\ (exists r, In r out /\ MonetaryScore r = 5).
Proof.
  intros H. split; [intros r Hr; now apply (extreme_scores_rows now data out r) |].
  pose proof (successful_table_nonempty now data out H) as Hne.
  destruct (pipeline_rows now data out H) as [_ Hrows].
  assert (Hcells : forall r, In r out ->
            exists f m, Frequency (measured r) = Some f /\ MonetaryValue (measured r) = Some m).
  { intros r Hr. destruct (Hrows r Hr) as (Hd & _).
    destruct (measured_row now data _ Hd) as (_ & _ & Hf & Hm). eauto. }
  set (kR := fun r : Scored => inject_Z (Recency (measured r))).
  set (kF := fun r : Scored => match Frequency (measured r) with
                               | Some f => inject_Z f | None => 0%Q end).
  set (kM := fun r : Scored => match MonetaryValue (measured r) with
                               | Some m => m | None => 0%Q end).
  destruct (exists_min_key kR out Hne) as (r1 & H1 & M1).
  destruct (exists_max_key kR out Hne) as (r2 & H2 & M2).
  destruct (exists_min_key kF out Hne) as (r3 & H3 & M3).
  destruct (exists_max_key kF out Hne) as (r4 & H4 & M4).
  destruct (exists_min_key kM out Hne) as (r5 & H5 & M5).
  destruct (exists_max_key kM out Hne) as (r6 & H6 & M6).
  split; [| split; [| split; [| split; [| split]]]].
  - exists r1. split; [exact H1 |].
    apply (extreme_scores_rows now data out r1 H H1).
    intros r' Hr'. specialize (M1 r' Hr'). unfold kR in M1. now rewrite Zle_Qle.
  - exists r2. split; [exact H2 |].
    apply (extreme_scores_rows now data out r2 H H2).
    intros r' Hr'. specialize (M2 r' Hr'). unfold kR in M2. now rewrite Zle_Qle.
  - exists r3. split; [exact H3 |].
    destruct (Hcells r3 H3) as (f & _ & Ef & _).
    apply (proj1 (proj2 (proj2 (extreme_scores_rows now data out r3 H H3))) f Ef).
    intros r' f' Hr' Ef'. specialize (M3 r' Hr'). unfold kF in M3.
    rewrite Ef, Ef' in M3. now rewrite Zle_Qle.
  - exists r4. split; [exact H4 |].
    destruct (Hcells r4 H4) as (f & _ & Ef & _).
    apply (proj1 (proj2 (proj2 (extreme_scores_rows now data out r4 H H4))) f Ef).
    intros r' f' Hr' Ef'. specialize (M4 r' Hr'). unfold kF in M4.
    rewrite Ef, Ef' in M4. now rewrite Zle_Qle.
  - exists r5. split; [exact H5 |].
    destruct (Hcells r5 H5) as (_ & m & _ & Em).
    apply (proj2 (proj2 (proj2 (extreme_scores_rows now data out r5 H H5))) m Em).
    intros r' m' Hr' Em'. specialize (M5 r' Hr'). unfold kM in M5.
    now rewrite Em, Em' in M5.
  - exists r6. split; [exact H6 |].
    destruct (Hcells r6 H6) as (_ & m & _ & Em).
    apply (proj2 (proj2 (proj2 (extreme_scores_rows now data out r6 H H6))) m Em).
    intros r' m' Hr' Em'. specialize (M6 r' Hr'). unfold kM in M6.
    now rewrite Em, Em' in M6.
Qed.

Lemma extreme_values_extreme_scores_witness :
  RecencyScore (nth 3 (Sample.run_of Sample.shop_a) Sample.no_row) = 5
  /\ exists r, In r (Sample.run_of Sample.shop_a) /\ MonetaryScore r = 5.
Proof.
  destruct (extreme_values_extreme_scores Sample.now Sample.shop_a _ shop_a_runs)
    as (Hrows & _ & _ & _ & _ & _ & HM5).
  split; [| exact HM5].
  apply (Hrows (nth 3 (Sample.run_of Sample.shop_a) Sample.no_row)).
  - apply nth_In. vm_compute. lia.
  - intros r' Hr'. vm_compute in Hr'. each_row Hr'; vm_compute; discriminate.
Defined.

(** X11.  In the table of a successful run, a row whose RFM_Score is the
    smallest of all rows is Low-Value and one whose RFM_Score is the largest
    is High-Value; so every successful table holds a Low-Value row and a
    High-Value row. *)
Theorem extreme_scores_extreme_tiers (now : Z) (data : list Txn) (out : list Scored) :
  pipeline now data = Ok out ->
  (forall r, In r out ->
     ((forall r', In r' out -> RFM_Score r <= RFM_Score r') ->
      Value_Segment r = Some "Low-Value"%string)
     /\ ((forall r', In r' out -> RFM_Score r' <= RFM_Score r) ->
         Value_Segment r = Some "High-Value"%string))
  /\ (exists r, In r out /\ Value_Segment r = Some "Low-Value"%string)
  /\ (exists r, In r out /\ Value_Segment r = Some "High-Value"%string).
Proof.
  intros H. split; [intros r Hr; now apply (extreme_tiers_rows now data out r) |].
  pose proof (successful_table_nonempty now data out H) as Hne.
  set (k := fun r : Scored => inject_Z (RFM_Score r)).
  destruct (exists_min_key k out Hne) as (r1 & H1 & M1).
  destruct (exists_max_key k out Hne) as (r2 & H2 & M2).
  split.
  - exists r1. split; [exact H1 |].
    apply (extreme_tiers_rows now data out r1 H H1).
    intros r' Hr'. specialize (M1 r' Hr'). unfold k in M1. now rewrite Zle_Qle.
  - exists r2. split; [exact H2 |].
    apply (extreme_tiers_rows now data out r2 H H2).
    intros r' Hr'. specialize (M2 r' Hr'). unfold k in M2. now rewrite Zle_Qle.
Qed.

Lemma extreme_scores_extreme_tiers_witness :
  Value_Segment (nth 13 (Sample.run_of Sample.shop_a) Sample.no_row)
  = Some "High-Value"%string
  /\ exists r, In r (Sample.run_of Sample.shop_a)
               /\ Value_Segment r = Some "Low-Value"%string.
Proof.
  destruct (extreme_scores_extreme_tiers Sample.now Sample.shop_a _ shop_a_runs)
    as (Hrows & HLow & _).
  split; [| exact HLow].
  apply (Hrows (nth 13 (Sample.run_of Sample.shop_a) Sample.no_row)).
  - apply nth_In. vm_compute. lia.
  - intros r' Hr'. vm_compute in Hr'. each_row Hr'; vm_compute; discriminate.
Defined.

(** ** Segments, scores and tiers *)

Lemma scored_row_facts (now : Z) (data : list Txn) (out : list Scored) (r : Scored) :
  pipeline now data = Ok out -> In r out ->
  1 <= RecencyScore r <= 5 /\ 1 <= FrequencyScore r <= 5 /\ 1 <= MonetaryScore r <= 5
  /\ RFM_Score r = RecencyScore r + FrequencyScore r + MonetaryScore r
  /\ RFM_Customer_Segments r = segment_of (RFM_Score r).
Proof.
  intros H Hr.
  destruct (pipeline_rows now data out H) as [_ Hrows].
  destruct (Hrows r Hr) as (_ & Hrow & HR & HF & HM).
  unfold Recency_label in HR. unfold Frequency_label in HF.
  unfold MonetaryValue_label in HM.
  apply score_label_range in HR; [| now left].
  apply score_label_range in HF; [| now right].
  apply score_label_range in HM; [| now right].
  repeat (split; [lia |]).
  split; rewrite Hrow; reflexivity.
Qed.

(** The segment of a score, read backwards. *)
Lemma segment_of_inv (s : Z) :
  (segment_of s = "Champions"%string <-> 9 <= s)
  /\ (segment_of s = "Potential Loyalists"%string <-> 6 <= s < 9)
  /\ (segment_of s = "At Risk Customers"%string <-> s = 5)
  /\ (segment_of s = "Can't Lose"%string <-> s = 4)
  /\ (segment_of s = "Lost"%string <-> s < 4).
Proof.
  destruct (segment_of_table s) as (T1 & T2 & T3 & T4 & T5).
  assert (Hcases : 9 <= s \/ 6 <= s < 9 \/ s = 5 \/ s = 4 \/ s < 4) by lia.
  assert (Hinv : forall (k : string) (P : Prop),
             (P -> segment_of s = k) ->
             ((9 <= s -> "Champions"%string = k -> P)
              /\ (6 <= s < 9 -> "Potential Loyalists"%string = k -> P)
              /\ (s = 5 -> "At Risk Customers"%string = k -> P)
              /\ (s = 4 -> "Can't Lose"%string = k -> P)
              /\ (s < 4 -> "Lost"%string = k -> P)) ->
             (segment_of s = k <-> P)).
  { intros k P Hto (J1 & J2 & J3 & J4 & J5). split; [| exact Hto].
    intros E. destruct Hcases as [C | [C | [C | [C | C]]]].
    - apply (J1 C). now rewrite <- (T1 C).
    - apply (J2 C). now rewrite <- (T2 C).
    - apply (J3 C). now rewrite <- (T3 C).
    - apply (J4 C). now rewrite <- (T4 C).
    - apply (J5 C). now rewrite <- (T5 C). }
  split; [| split; [| split; [| split]]]; (apply Hinv; [assumption |]);
    (split; [| split; [| split; [| split]]]); intros C E;
    first [discriminate E | lia].
Qed.

(** X12.  In the table of a successful run the segment tells the scores: a
    row is Lost exactly when its three scores are all 1, Can't Lose exactly
    when they add up to 4, At Risk Customers exactly when they add up to 5,
    Potential Loyalists exactly when they add up to 6, 7 or 8, and Champions
    exactly when they add up to 9 or more. *)
Theorem segment_tells_scores (now : Z) (data : list Txn) (out : list Scored) (r : Scored) :
  pipeline now data = Ok out -> In r out ->
  (RFM_Customer_Segments r = "Lost"%string
   <-> RecencyScore r = 1 /\ FrequencyScore r = 1 /\ MonetaryScore r = 1)
  /\ (RFM_Customer_Segments r = "Can't Lose"%string
      <-> RecencyScore r + FrequencyScore r + MonetaryScore r = 4)
  /\ (RFM_Customer_Segments r = "At Risk Customers"%string
      <-> RecencyScore r + FrequencyScore r + MonetaryScore r = 5)
  /\ (RFM_Customer_Segments r = "Potential Loyalists"%string
      <-> 6 <= RecencyScore r + FrequencyScore r + MonetaryScore r <= 8)
  /\ (RFM_Customer_Segments r = "Champions"%string
      <-> 9 <= RecencyScore r + FrequencyScore r + MonetaryScore r).
Proof.
  intros H Hr.
  destruct (scored_row_facts now data out r H Hr) as (HR & HF & HM & Hsum & ->).
  destruct (segment_of_inv (RFM_Score r)) as (I1 & I2 & I3 & I4 & I5).
  rewrite I1, I2, I3, I4, I5, Hsum. repeat split; intros; lia.
Qed.

Lemma segment_tells_scores_witness :
  RFM_Customer_Segments (nth 1 (Sample.run_of Sample.shop_a) Sample.no_row)
  = "At Risk Customers"%string
  /\ RecencyScore (nth 1 (Sample.run_of Sample.shop_a) Sample.no_row)
     + FrequencyScore (nth 1 (Sample.run_of Sample.shop_a) Sample.no_row)
     + MonetaryScore (nth 1 (Sample.run_of Sample.shop_a) Sample.no_row) = 5.
Proof.
  split; [vm_compute; reflexivity |].
  apply (segment_tells_scores Sample.now Sample.shop_a _ _ shop_a_runs).
  - apply nth_In. vm_compute. lia.
  - vm_compute. reflexivity.
Defined.

(** X13.  In the table of a successful run the Champions selection of line
    88 is exactly the rows with RFM_Score 9 or more, in table order. *)
Theorem champions_are_scores_from_9 (now : Z) (data : list Txn) (out : list Scored) :
  pipeline now data = Ok out ->
  champions_segment out = filter (fun r => 9 <=? RFM_Score r) out.
Proof.
  intros H. unfold champions_segment. apply filter_ext_in. intros r Hr.
  destruct (scored_row_facts now data out r H Hr) as (_ & _ & _ & _ & ->).
  destruct (segment_of_inv (RFM_Score r)) as (I1 & _).
  destruct (Z.leb_spec 9 (RFM_Score r)) as [Hle | Hlt].
  - apply String.eqb_eq. now apply I1.
  - apply String.eqb_neq. intros E. apply I1 in E. lia.
Qed.

Lemma champions_are_scores_from_9_witness :
  map RFM_Score (champions_segment (Sample.run_of Sample.shop_a))
  = [9; 10; 9; 9; 9; 9; 14; 11; 11; 14].
Proof.
  rewrite (champions_are_scores_from_9 Sample.now Sample.shop_a _ shop_a_runs).
  vm_compute. reflexivity.
Defined.

Lemma segment_rank_order (s1 s2 : Z) :
  (Uploads.segment_rank (segment_of s1) < Uploads.segment_rank (segment_of s2))%nat ->
  s1 < s2.
Proof.
  destruct (segment_of_table s1) as (A1 & A2 & A3 & A4 & A5).
  destruct (segment_of_table s2) as (B1 & B2 & B3 & B4 & B5).
  assert (C1 : 9 <= s1 \/ 6 <= s1 < 9 \/ s1 = 5 \/ s1 = 4 \/ s1 < 4) by lia.
  assert (C2 : 9 <= s2 \/ 6 <= s2 < 9 \/ s2 = 5 \/ s2 = 4 \/ s2 < 4) by lia.
  destruct C1 as [C1 | [C1 | [C1 | [C1 | C1]]]];
    [rewrite (A1 C1) | rewrite (A2 C1) | rewrite (A3 C1) | rewrite (A4 C1)
     | rewrite (A5 C1)];
    (destruct C2 as [C2 | [C2 | [C2 | [C2 | C2]]]];
     [rewrite (B1 C2) | rewrite (B2 C2) | rewrite (B3 C2) | rewrite (B4 C2)
      | rewrite (B5 C2)]);
    intros Hrank; vm_compute in Hrank; lia.
Qed.

(** X14.  The two segmentations never contradict each other within one
    table: a row in a lower threshold segment (in the order Lost, Can't Lose,
    At Risk Customers, Potential Loyalists, Champions) is never in a higher
    value tier than a row in a higher segment. *)
Theorem lower_segment_not_higher_tier (now : Z) (data : list Txn) (out : list Scored)
        (r1 r2 : Scored) :
  pipeline now data = Ok out -> In r1 out -> In r2 out ->
  (Uploads.segment_rank (RFM_Customer_Segments r1)
   < Uploads.segment_rank (RFM_Customer_Segments r2))%nat ->
  exists i1 i2,
    Value_Segment r1 = nth_error segment_labels i1
    /\ Value_Segment r2 = nth_error segment_labels i2
    /\ (i1 <= i2 < 3)%nat.
Proof.
  intros H H1 H2 Hrank.
  destruct (scored_row_facts now data out r1 H H1) as (_ & _ & _ & _ & E1).
  destruct (scored_row_facts now data out r2 H H2) as (_ & _ & _ & _ & E2).
  rewrite E1, E2 in Hrank. apply segment_rank_order in Hrank.
  destruct (value_segment_bin now data out r1 H H1) as (_ & i1 & Hb1 & Hi1 & Hl1).
  destruct (value_segment_bin now data out r2 H H2) as (_ & i2 & Hb2 & Hi2 & Hl2).
  exists i1, i2. split; [exact Hl1 |]. split; [exact Hl2 |].
  assert (Hq : (inject_Z (RFM_Score r1) <= inject_Z (RFM_Score r2))%Q)
    by (rewrite <- Zle_Qle; lia).
  pose proof (bin_id_mono _ _ _ _ _ Hq Hb1 Hb2). lia.
Qed.

Lemma lower_segment_not_higher_tier_witness :
  exists i1 i2,
    Value_Segment (nth 1 (Sample.run_of Sample.shop_a) Sample.no_row)
    = nth_error segment_labels i1
    /\ Value_Segment (nth 3 (Sample.run_of Sample.shop_a) Sample.no_row)
       = nth_error segment_labels i2
    /\ (i1 <= i2 < 3)%nat.
Proof.
  apply (lower_segment_not_higher_tier Sample.now Sample.shop_a _ _ _ shop_a_runs).
  - apply nth_In. vm_compute. lia.
  - apply nth_In. vm_compute. lia.
  - vm_compute. lia.
Defined.

(** ** The correlation matrix *)

Lemma sum_nonneg (l : list Q) : Forall (fun x => (0 <= x)%Q) l -> (0 <= sum l)%Q.
Proof.
  induction 1 as [|x l Hx _ IH]; [apply Qle_refl |].
  rewrite sum_cons. lra.
Qed.

Lemma sum_all_zero (l : list Q) : Forall (fun x => (x == 0)%Q) l -> (sum l == 0)%Q.
Proof.
  induction 1 as [|x l Hx _ IH]; [reflexivity |].
  rewrite sum_cons, Hx, IH. ring.
Qed.

Lemma combine_diag {A : Type} (l : list A) : combine l l = map (fun x => (x, x)) l.
Proof.
  induction l as [|a l IH]; simpl; [reflexivity | now rewrite IH].
Qed.

Lemma Qeq_bool_zero_comp (x y : Q) : (x == y)%Q -> Qeq_bool x 0 = Qeq_bool y 0.
Proof.
  intros H. destruct (Qeq_bool y 0) eqn:E.
  - apply Qeq_bool_iff. apply Qeq_bool_iff in E. now rewrite H.
  - destruct (Qeq_bool x 0) eqn:E'; [| reflexivity].
    apply Qeq_bool_iff in E'. rewrite H in E'. apply Qeq_bool_iff in E'. congruence.
Qed.

Lemma sum_products_comm (l1 l2 : list Q) :
  (sum (map (fun p => fst p * snd p) (combine l1 l2))
   == sum (map (fun p => fst p * snd p) (combine l2 l1)))%Q.
Proof.
  revert l2; induction l1 as [|a l1 IH]; intros [|b l2]; simpl combine; simpl map;
    try reflexivity.
  rewrite !sum_cons, IH. simpl. ring.
Qed.

(** An entry on the diagonal is NaN or 1. *)
Lemma corr_entry_diagonal (xs : list Q) :
  corr_entry xs xs = None \/ exists p, corr_entry xs xs = Some p /\ Views.is_one p.
Proof.
  unfold corr_entry. destruct (length xs <? 1)%nat; [now left |].
  set (dx := map (fun x => (x - mean xs)%Q) xs).
  assert (Hcov : map (fun p : Q * Q => (fst p * snd p)%Q) (combine dx dx)
                 = map (fun d => (d * d)%Q) dx)
    by (rewrite combine_diag, map_map; reflexivity).
  rewrite Hcov.
  set (ssx := sum (map (fun d => (d * d)%Q) dx)).
  destruct (Qeq_bool (ssx * ssx) 0) eqn:E; [now left |].
  right. eexists. split; [reflexivity |]. unfold Views.is_one. simpl.
  split; [| reflexivity].
  assert (H0 : (0 <= ssx)%Q).
  { apply sum_nonneg, Forall_forall. intros y Hy. apply in_map_iff in Hy.
    destruct Hy as (d & <- & _).
    destruct (Qlt_le_dec d 0) as [Hneg | Hpos].
    - setoid_replace (d * d)%Q with ((- d) * (- d))%Q by ring.
      apply Qmult_le_0_compat; lra.
    - now apply Qmult_le_0_compat. }
  apply Qeq_bool_neq in E.
  destruct (Qlt_le_dec 0 ssx) as [Hpos | Hle]; [exact Hpos |].
  exfalso. apply E. assert (ssx == 0)%Q by lra. rewrite H. ring.
Qed.

(** Swapping the two columns does not change an entry. *)
Lemma corr_entry_sym (xs ys : list Q) :
  length xs = length ys -> Uploads.same_entry (corr_entry xs ys) (corr_entry ys xs).
Proof.
  intros Hlen. unfold corr_entry. rewrite <- Hlen.
  destruct (length xs <? 1)%nat; [exact I |].
  set (dx := map (fun x => (x - mean xs)%Q) xs).
  set (dy := map (fun y => (y - mean ys)%Q) ys).
  set (ssx := sum (map (fun d => (d * d)%Q) dx)).
  set (ssy := sum (map (fun d => (d * d)%Q) dy)).
  assert (Hp : (ssx * ssy == ssy * ssx)%Q) by ring.
  rewrite (Qeq_bool_zero_comp _ _ Hp).
  destruct (Qeq_bool (ssy * ssx) 0); [exact I |].
  simpl. split; [apply sum_products_comm | exact Hp].
Qed.

Lemma sum_constant (c : Q) (l : list Q) :
  (forall x, In x l -> x = c) -> (sum l == inject_Z (Z.of_nat (length l)) * c)%Q.
Proof.
  induction l as [|a l IH]; intros H.
  - simpl. rewrite sum_nil. ring.
  - rewrite sum_cons, IH by (intros x Hx; apply H; now right).
    rewrite (H a) by now left.
    simpl length. rewrite Nat2Z.inj_succ. unfold Z.succ. rewrite inject_Z_plus.
    ring.
Qed.

(** A column without variance has squared deviations adding up to 0. *)
Lemma constant_column_no_variance (c : Q) (xs : list Q) :
  (forall x, In x xs -> x = c) ->
  (sum (map (fun d => (d * d)%Q) (map (fun x => (x - mean xs)%Q) xs)) == 0)%Q.
Proof.
  intros Hc. destruct xs as [|a xs']; [reflexivity |].
  set (xs := a :: xs') in *.
  assert (Hmean : (mean xs == c)%Q).
  { unfold mean. rewrite (sum_constant c xs Hc).
    assert (Hn : ~ (inject_Z (Z.of_nat (length xs)) == 0)%Q).
    { change 0%Q with (inject_Z 0). rewrite inject_Z_injective.
      unfold xs. simpl length. lia. }
    field. exact Hn. }
  apply sum_all_zero, Forall_forall. intros y Hy.
  rewrite map_map in Hy. apply in_map_iff in Hy. destruct Hy as (x & <- & Hx).
  rewrite (Hc x Hx), Hmean. ring.
Qed.

Lemma corr_entry_constant (c : Q) (xs ys : list Q) :
  (forall x, In x xs -> x = c) ->
  corr_entry xs ys = None /\ corr_entry ys xs = None.
Proof.
  intros Hc. pose proof (constant_column_no_variance c xs Hc) as Hz.
  unfold corr_entry. split.
  - destruct (length xs <? 1)%nat; [reflexivity |].
    match goal with
    | |- (if Qeq_bool ?t 0 then _ else _) = _ =>
        assert (E : Qeq_bool t 0 = true) by (apply Qeq_bool_iff; rewrite Hz; ring)
    end.
    now rewrite E.
  - destruct (length ys <? 1)%nat; [reflexivity |].
    match goal with
    | |- (if Qeq_bool ?t 0 then _ else _) = _ =>
        assert (E : Qeq_bool t 0 = true) by (apply Qeq_bool_iff; rewrite Hz; ring)
    end.
    now rewrite E.
Qed.

(** X15.  The Champions correlation matrix always has three rows of three
    entries; it is symmetric, and each entry on its diagonal is NaN or 1. *)
Theorem correlation_matrix_shape (champions : list Scored) :
  exists rr rf rm fr ff fm mr mf mm,
    correlation_matrix champions = [ [rr; rf; rm]; [fr; ff; fm]; [mr; mf; mm] ]
    /\ Uploads.same_entry rf fr /\ Uploads.same_entry rm mr /\ Uploads.same_entry fm mf
    /\ (rr = None \/ exists p, rr = Some p /\ Views.is_one p)
    /\ (ff = None \/ exists p, ff = Some p /\ Views.is_one p)
    /\ (mm = None \/ exists p, mm = Some p /\ Views.is_one p).
Proof.
  unfold correlation_matrix, corr. cbn [map].
  do 9 eexists. split; [reflexivity |].
  repeat split;
    first [ apply corr_entry_sym; now rewrite !length_map | apply corr_entry_diagonal ].
Qed.

(** X16.  When all Champions rows share one value of a score (always so
    when there is a single Champions row), every entry of the correlation
    matrix in the row and in the column of that score is NaN. *)
Theorem constant_score_nan_entries (champions : list Scored) :
  exists rr rf rm fr ff fm mr mf mm,
    correlation_matrix champions = [ [rr; rf; rm]; [fr; ff; fm]; [mr; mf; mm] ]
    /\ ((forall r1 r2, In r1 champions -> In r2 champions ->
                       RecencyScore r1 = RecencyScore r2) ->
        rr = None /\ rf = None /\ rm = None /\ fr = None /\ mr = None)
    /\ ((forall r1 r2, In r1 champions -> In r2 champions ->
                       FrequencyScore r1 = FrequencyScore r2) ->
        fr = None /\ ff = None /\ fm = None /\ rf = None /\ mf = None)
    /\ ((forall r1 r2, In r1 champions -> In r2 champions ->
                       MonetaryScore r1 = MonetaryScore r2) ->
        mr = None /\ mf = None /\ mm = None /\ rm = None /\ fm = None)
    /\ (length champions = 1%nat -> correlation_matrix champions = nan_matrix).
Proof.
  unfold correlation_matrix, corr. cbn [map].
  assert (Hconst : forall (score : Scored -> Z),
             (forall r1 r2, In r1 champions -> In r2 champions -> score r1 = score r2) ->
             exists c, forall x, In x (map (fun r => inject_Z (score r)) champions) -> x = c).
  { intros score Hsame. destruct champions as [|r0 rest] eqn:E.
    - exists 0%Q. intros x [].
    - exists (inject_Z (score r0)). intros x Hx. apply in_map_iff in Hx.
      destruct Hx as (r & <- & Hr). f_equal. apply Hsame; [exact Hr | now left]. }
  do 9 eexists. split; [reflexivity |].
  split; [| split; [| split]].
  - intros Hsame. destruct (Hconst RecencyScore Hsame) as (c & Hc).
    repeat split; apply (corr_entry_constant c _ _ Hc).
  - intros Hsame. destruct (Hconst FrequencyScore Hsame) as (c & Hc).
    repeat split; apply (corr_entry_constant c _ _ Hc).
  - intros Hsame. destruct (Hconst MonetaryScore Hsame) as (c & Hc).
    repeat split; apply (corr_entry_constant c _ _ Hc).
  - intros Hlen. destruct champions as [|r0 [|r1 rest]]; try discriminate.
    assert (Hone : forall score : Scored -> Z, forall x,
               In x (map (fun r => inject_Z (score r)) [r0]) -> x = inject_Z (score r0)).
    { intros score x [<- | []]. reflexivity. }
    unfold nan_matrix.
    repeat (f_equal; try apply (corr_entry_constant _ _ _ (Hone _))).
Qed.

Lemma constant_score_nan_entries_witness :
  correlation_matrix [nth 3 (Sample.run_of Sample.shop_a) Sample.no_row] = nan_matrix.
Proof.
  destruct (constant_score_nan_entries [nth 3 (Sample.run_of Sample.shop_a) Sample.no_row])
    as (rr & rf & rm & fr & ff & fm & mr & mf & mm & _ & _ & _ & _ & Hone).
  apply Hone. reflexivity.
Defined.

(** ** The per-segment means *)

Lemma string_leb_le (a b : string) :
  String.leb a b = true <-> a = b \/ OrderedTypeEx.String_as_OT.lt a b.
Proof.
  unfold String.leb.
  pose proof (OrderedTypeEx.String_as_OT.cmp_eq a b) as Heq.
  pose proof (OrderedTypeEx.String_as_OT.cmp_lt a b) as Hlt.
  unfold OrderedTypeEx.String_as_OT.cmp in *.
  destruct (String.compare a b); split; intros H; try tauto; try discriminate.
  - destruct H as [H | H]; [apply Heq in H | apply Hlt in H]; discriminate.
Qed.

Lemma string_leb_trans (a b c : string) :
  String.leb a b = true -> String.leb b c = true -> String.leb a c = true.
Proof.
  rewrite !string_leb_le. intros [-> | H1] [-> | H2]; auto.
  right. eapply OrderedTypeEx.String_as_OT.lt_trans; eassumption.
Qed.

Lemma group_names_In (data : list Scored) (k : string) :
  In k (Views.group_names data) <-> exists r, In r data /\ RFM_Customer_Segments r = k.
Proof.
  unfold Views.group_names. split.
  - intros H. apply (Permutation_in _ (isort_perm String.leb _)) in H.
    apply nodup_In, in_map_iff in H. destruct H as (r & <- & Hr). now exists r.
  - intros (r & Hr & <-).
    apply (Permutation_in _ (Permutation_sym (isort_perm String.leb _))).
    apply nodup_In. now apply in_map.
Qed.

Lemma group_names_NoDup (data : list Scored) : NoDup (Views.group_names data).
Proof.
  unfold Views.group_names.
  apply (Permutation_NoDup (Permutation_sym (isort_perm String.leb _))).
  apply NoDup_nodup.
Qed.

(** X17.  The per-segment view has one row for each segment that occurs in
    the table and no other, in ascending order of the segment names; for the
    table of a successful run these are at most five rows, named by the five
    segment labels. *)
Theorem segment_scores_rows :
  (forall data : list Scored,
      NoDup (map Views.segment (Views.segment_scores data))
      /\ StronglySorted (fun a b => String.leb a b = true)
                        (map Views.segment (Views.segment_scores data))
      /\ (forall k, In k (map Views.segment (Views.segment_scores data))
                    <-> exists r, In r data /\ RFM_Customer_Segments r = k))
  /\ (forall now data out,
         pipeline now data = Ok out ->
         (1 <= length (Views.segment_scores out) <= 5)%nat
         /\ incl (map Views.segment (Views.segment_scores out)) Uploads.segments_ascending).
Proof.
  assert (Hnames : forall data, map Views.segment (Views.segment_scores data)
                                = Views.group_names data).
  { intros data. unfold Views.segment_scores. rewrite map_map. simpl. apply map_id. }
  split.
  - intros data. rewrite Hnames. split; [apply group_names_NoDup |]. split.
    + apply (isort_sorted String.leb String.leb_total string_leb_trans).
    + apply group_names_In.
  - intros now data out H.
    assert (Hincl : incl (Views.group_names out) Uploads.segments_ascending).
    { intros k Hk. apply group_names_In in Hk. destruct Hk as (r & Hr & <-).
      destruct (scored_row_facts now data out r H Hr) as (_ & _ & _ & _ & ->).
      destruct (segment_of_table (RFM_Score r)) as (T1 & T2 & T3 & T4 & T5).
      assert (C : 9 <= RFM_Score r \/ 6 <= RFM_Score r < 9 \/ RFM_Score r = 5
                  \/ RFM_Score r = 4 \/ RFM_Score r < 4) by lia.
      destruct C as [C | [C | [C | [C | C]]]];
        [rewrite (T1 C) | rewrite (T2 C) | rewrite (T3 C) | rewrite (T4 C)
         | rewrite (T5 C)]; simpl; tauto. }
    rewrite Hnames. split; [| exact Hincl].
    rewrite <- (length_map Views.segment), Hnames. split.
    + pose proof (successful_table_nonempty now data out H) as Hne.
      destruct out as [|r0 out']; [congruence |].
      assert (Hin : In (RFM_Customer_Segments r0) (Views.group_names (r0 :: out')))
        by (apply group_names_In; exists r0; split; [now left | reflexivity]).
      destruct (Views.group_names (r0 :: out')); [contradiction | simpl; lia].
    + apply (NoDup_incl_length (group_names_NoDup out) Hincl).
Qed.

Lemma segment_scores_rows_witness :
  map Views.segment (Views.segment_scores (Sample.run_of Sample.shop_a))
  = ["At Risk Customers"; "Champions"; "Potential Loyalists"]%string
  /\ (1 <= length (Views.segment_scores (Sample.run_of Sample.shop_a)) <= 5)%nat.
Proof.
  split; [vm_compute; reflexivity |].
  destruct segment_scores_rows as [_ Hrun].
  apply (Hrun Sample.now Sample.shop_a _ shop_a_runs).
Defined.

Lemma length_pos_Q {A : Type} (l : list A) :
  l <> [] -> (0 < inject_Z (Z.of_nat (length l)))%Q.
Proof.
  intros H. change 0%Q with (inject_Z 0). rewrite <- Zlt_Qlt.
  destruct l; [congruence | simpl length; lia].
Qed.

Lemma sum_bounds (a b : Q) (l : list Q) :
  (forall x, In x l -> (a <= x <= b)%Q) ->
  (inject_Z (Z.of_nat (length l)) * a <= sum l
   /\ sum l <= inject_Z (Z.of_nat (length l)) * b)%Q.
Proof.
  induction l as [|x l IH]; intros H.
  - simpl length. rewrite sum_nil. change (inject_Z (Z.of_nat 0)) with 0%Q.
    split; [rewrite Qmult_0_l | rewrite Qmult_0_l]; apply Qle_refl.
  - destruct IH as [IH1 IH2]; [intros y Hy; apply H; now right |].
    destruct (H x (or_introl eq_refl)) as [Hx1 Hx2].
    rewrite sum_cons. simpl length. rewrite Nat2Z.inj_succ. unfold Z.succ.
    rewrite inject_Z_plus. change (inject_Z 1) with 1%Q. split; lra.
Qed.

(** The mean of a non-empty column lies between any two bounds of its values. *)
Lemma mean_bounds (a b : Q) (l : list Q) :
  l <> [] -> (forall x, In x l -> (a <= x <= b)%Q) -> (a <= mean l <= b)%Q.
Proof.
  intros Hne H. destruct (sum_bounds a b l H) as [H1 H2].
  pose proof (length_pos_Q l Hne) as Hn. unfold mean. split.
  - apply Qle_shift_div_l; [exact Hn |]. lra.
  - apply Qle_shift_div_r; [exact Hn |]. lra.
Qed.

(** The means of three columns of one table add up to the mean of their
    row-wise sum. *)
Lemma mean_add3 {A : Type} (f g h : A -> Q) (l : list A) :
  l <> [] ->
  (mean (map f l) + mean (map g l) + mean (map h l)
   == mean (map (fun a => f a + g a + h a) l))%Q.
Proof.
  intros Hne. unfold mean. rewrite !length_map.
  rewrite (sum_map_add (fun a => (f a + g a)%Q) h), (sum_map_add f g).
  pose proof (length_pos_Q l Hne) as Hn.
  field. intros E. rewrite E in Hn. exact (Qlt_irrefl _ Hn).
Qed.

(** X18.  In the per-segment view of a successful run every mean score lies
    between 1 and 5, and the three means of a segment add up to a value in
    the segment's own score range: exactly 3 for Lost (each mean is 1),
    exactly 4 for Can't Lose, exactly 5 for At Risk Customers, between 6 and
    8 for Potential Loyalists and between 9 and 15 for Champions. *)
Theorem segment_means_in_range (now : Z) (data : list Txn) (out : list Scored)
        (row : Views.SegmentMeans) :
  pipeline now data = Ok out -> In row (Views.segment_scores out) ->
  let total := (Views.mean_RecencyScore row + Views.mean_FrequencyScore row
                + Views.mean_MonetaryScore row)%Q in
  (1 <= Views.mean_RecencyScore row <= 5)%Q
  /\ (1 <= Views.mean_FrequencyScore row <= 5)%Q
  /\ (1 <= Views.mean_MonetaryScore row <= 5)%Q
  /\ (Views.segment row = "Lost"%string ->
      (Views.mean_RecencyScore row == 1)%Q /\ (Views.mean_FrequencyScore row == 1)%Q
      /\ (Views.mean_MonetaryScore row == 1)%Q)
  /\ (Views.segment row = "Can't Lose"%string -> (total == 4)%Q)
  /\ (Views.segment row = "At Risk Customers"%string -> (total == 5)%Q)
  /\ (Views.segment row = "Potential Loyalists"%string -> (6 <= total <= 8)%Q)
  /\ (Views.segment row = "Champions"%string -> (9 <= total <= 15)%Q).
Proof.
  intros H Hrow total.
  unfold Views.segment_scores in Hrow. apply in_map_iff in Hrow.
  destruct Hrow as (k & <- & Hk). cbn [Views.segment Views.mean_RecencyScore
    Views.mean_FrequencyScore Views.mean_MonetaryScore] in *.
  set (g := Views.segment_rows out k) in *.
  assert (Hg : forall r, In r g -> In r out /\ RFM_Customer_Segments r = k).
  { intros r Hr. unfold g, Views.segment_rows in Hr. apply filter_In in Hr.
    destruct Hr as [Hr E]. split; [exact Hr | now apply String.eqb_eq]. }
  assert (Hne : g <> []).
  { apply group_names_In in Hk. destruct Hk as (r & Hr & E).
    assert (Hin : In r g).
    { unfold g, Views.segment_rows. apply filter_In. split; [exact Hr |].
      now apply String.eqb_eq. }
    intros E0. rewrite E0 in Hin. contradiction. }
  assert (Hfacts : forall r, In r g ->
            1 <= RecencyScore r <= 5 /\ 1 <= FrequencyScore r <= 5
            /\ 1 <= MonetaryScore r <= 5
            /\ segment_of (RecencyScore r + FrequencyScore r + MonetaryScore r) = k).
  { intros r Hr. destruct (Hg r Hr) as [Hout E].
    destruct (scored_row_facts now data out r H Hout) as (HR & HF & HM & Hsum & Hseg).
    repeat (split; [assumption |]). now rewrite <- Hsum, <- Hseg. }
  assert (Hcol : forall (score : Scored -> Z) (a b : Z),
             (forall r, In r g -> a <= score r <= b) ->
             (inject_Z a <= mean (map (fun r => inject_Z (score r)) g) <= inject_Z b)%Q).
  { intros score a b Hab. apply mean_bounds.
    - intros E. apply map_eq_nil in E. contradiction.
    - intros x Hx. apply in_map_iff in Hx. destruct Hx as (r & <- & Hr).
      rewrite <- !Zle_Qle. now apply Hab. }
  assert (Htotal : (total == mean (map (fun r => inject_Z (RecencyScore r + FrequencyScore r
                                                          + MonetaryScore r)) g))%Q).
  { unfold total, Views.RecencyScore_values, Views.FrequencyScore_values,
      Views.MonetaryScore_values.
    rewrite (mean_add3 (fun r => inject_Z (RecencyScore r))
                       (fun r => inject_Z (FrequencyScore r))
                       (fun r => inject_Z (MonetaryScore r)) g Hne).
    unfold mean. rewrite !length_map.
    assert (Hs : (sum (map (fun a => inject_Z (RecencyScore a) + inject_Z (FrequencyScore a)
                                     + inject_Z (MonetaryScore a)) g)
                  == sum (map (fun r => inject_Z (RecencyScore r + FrequencyScore r
                                                  + MonetaryScore r)) g))%Q).
    { apply sum_map_ext. intros r _. rewrite !inject_Z_plus. reflexivity. }
    now rewrite Hs. }
  assert (Hrange : forall a b : Z,
             (forall s, segment_of s = k -> a <= s <= b) ->
             (inject_Z a <= total <= inject_Z b)%Q).
  { intros a b Hab. rewrite Htotal.
    apply (Hcol (fun r => RecencyScore r + FrequencyScore r + MonetaryScore r)).
    intros r Hr. apply Hab. apply (Hfacts r Hr). }
  split; [apply (Hcol RecencyScore 1 5); intros r Hr; apply (Hfacts r Hr) |].
  split; [apply (Hcol FrequencyScore 1 5); intros r Hr; apply (Hfacts r Hr) |].
  split; [apply (Hcol MonetaryScore 1 5); intros r Hr; apply (Hfacts r Hr) |].
  split; [| split; [| split; [| split]]]; intros Ek.
  - assert (Hone : forall r, In r g ->
              RecencyScore r = 1 /\ FrequencyScore r = 1 /\ MonetaryScore r = 1).
    { intros r Hr. destruct (Hfacts r Hr) as (HR & HF & HM & Hseg).
      rewrite Ek in Hseg. apply (proj2 (proj2 (proj2 (proj2 (segment_of_inv _))))) in Hseg.
      lia. }
    repeat split; apply Qle_antisym.
    + apply (Hcol RecencyScore 1 1). intros r Hr. destruct (Hone r Hr) as (-> & _). lia.
    + apply (Hcol RecencyScore 1 1). intros r Hr. destruct (Hone r Hr) as (-> & _). lia.
    + apply (Hcol FrequencyScore 1 1). intros r Hr. destruct (Hone r Hr) as (_ & -> & _). lia.
    + apply (Hcol FrequencyScore 1 1). intros r Hr. destruct (Hone r Hr) as (_ & -> & _). lia.
    + apply (Hcol MonetaryScore 1 1). intros r Hr. destruct (Hone r Hr) as (_ & _ & ->). lia.
    + apply (Hcol MonetaryScore 1 1). intros r Hr. destruct (Hone r Hr) as (_ & _ & ->). lia.
  - apply Qle_antisym; apply (Hrange 4 4); intros s Hs; rewrite Ek in Hs;
      apply (proj1 (proj2 (proj2 (proj2 (segment_of_inv _))))) in Hs; lia.
  - apply Qle_antisym; apply (Hrange 5 5); intros s Hs; rewrite Ek in Hs;
      apply (proj1 (proj2 (proj2 (segment_of_inv _)))) in Hs; lia.
  - apply (Hrange 6 8). intros s Hs. rewrite Ek in Hs.
    apply (proj1 (proj2 (segment_of_inv _))) in Hs. lia.
  - assert (Hlo : (9 <= total)%Q).
    { rewrite Htotal.
      apply (Hcol (fun r => RecencyScore r + FrequencyScore r + MonetaryScore r) 9 15).
      intros r Hr. destruct (Hfacts r Hr) as (HR & HF & HM & Hseg).
      rewrite Ek in Hseg. apply (proj1 (segment_of_inv _)) in Hseg. lia. }
    split; [exact Hlo |]. rewrite Htotal.
    apply (Hcol (fun r => RecencyScore r + FrequencyScore r + MonetaryScore r) 9 15).
    intros r Hr. destruct (Hfacts r Hr) as (HR & HF & HM & Hseg).
    rewrite Ek in Hseg. apply (proj1 (segment_of_inv _)) in Hseg. lia.
Qed.

Lemma segment_means_in_range_witness :
  Views.segment (nth 1 (Views.segment_scores (Sample.run_of Sample.shop_a)) Uploads.no_means)
  = "Champions"%string
  /\ (9 <= Views.mean_RecencyScore
             (nth 1 (Views.segment_scores (Sample.run_of Sample.shop_a)) Uploads.no_means)
           + Views.mean_FrequencyScore
               (nth 1 (Views.segment_scores (Sample.run_of Sample.shop_a)) Uploads.no_means)
           + Views.mean_MonetaryScore
               (nth 1 (Views.segment_scores (Sample.run_of Sample.shop_a)) Uploads.no_means)
      <= 15)%Q.
Proof.
  split; [vm_compute; reflexivity |].
  apply (segment_means_in_range Sample.now Sample.shop_a _ _ shop_a_runs).
  - apply nth_In. vm_compute. lia.
  - vm_compute. reflexivity.
Defined.

Example shop_a_segment_scores :
  map (fun row => (Views.segment row, Qred (Views.mean_RecencyScore row),
                   Qred (Views.mean_FrequencyScore row),
                   Qred (Views.mean_MonetaryScore row)))
      (Views.segment_scores (Sample.run_of Sample.shop_a))
  = [ ("At Risk Customers"%string, 2, 1, 2);
      ("Champions"%string, 7 # 2, 18 # 5, 17 # 5);
      ("Potential Loyalists"%string, 17 # 5, 7 # 5, 12 # 5) ]%Q.
Proof. vm_compute. reflexivity. Qed.

(** ** Ages in days *)

(** X19.  Recency counts whole elapsed days, rounding down: a row's Recency
    is the one integer [n] with [n] days <= now - PurchaseDate < [n + 1]
    days.  So a purchase less than a day old has Recency 0 and a purchase
    dated after the clock reading has a negative Recency; no row is rejected
    for its date. *)
Theorem recency_whole_days (now : Z) (data : list Txn) (d : Measured) :
  In d (derive_measures now data) ->
  Recency d * ns_per_day <= now - PurchaseDate (txn d) < (Recency d + 1) * ns_per_day
  /\ (forall n, n * ns_per_day <= now - PurchaseDate (txn d) < (n + 1) * ns_per_day ->
                n = Recency d)
  /\ (Recency d < 0 <-> now < PurchaseDate (txn d)).
Proof.
  intros H. destruct (measured_row now data d H) as (_ & -> & _).
  unfold days_between.
  assert (HN : 0 < ns_per_day) by reflexivity.
  set (e := now - PurchaseDate (txn d)).
  pose proof (Z.div_mod e ns_per_day ltac:(lia)) as Hdm.
  pose proof (Z.mod_pos_bound e ns_per_day HN) as Hmod.
  assert (Hb : e / ns_per_day * ns_per_day <= e < (e / ns_per_day + 1) * ns_per_day)
    by lia.
  split; [exact Hb |]. split.
  - intros n Hn. nia.
  - unfold e in *. split; intros Hlt; nia.
Qed.

Lemma recency_whole_days_witness :
  Recency (nth 0 (derive_measures Sample.now Sample.shop_a) (measured Sample.no_row)) = 2
  /\ 2 * ns_per_day <= Sample.now - Sample.on_day 19873 < 3 * ns_per_day.
Proof.
  split; [vm_compute; reflexivity |].
  apply (recency_whole_days Sample.now Sample.shop_a
           (nth 0 (derive_measures Sample.now Sample.shop_a) (measured Sample.no_row))).
  apply nth_In. vm_compute. lia.
Defined.

(** ** What a run reads of the upload *)

Lemma map_congr_on {A B C : Type} (p : A -> C) (F G : A -> B) (l1 l2 : list A) :
  map p l1 = map p l2 -> (forall a1 a2, p a1 = p a2 -> F a1 = G a2) ->
  map F l1 = map G l2.
Proof.
  revert l2; induction l1 as [|a1 l1 IH]; intros [|a2 l2] H HFG; simpl in *;
    try discriminate; [reflexivity |].
  injection H as Ha Hl. f_equal; [now apply HFG | now apply IH].
Qed.

Lemma derive_measures_cells (now : Z) (data : list Txn) :
  map Uploads.measure_cells (derive_measures now data)
  = map (fun k : Z * Q * Z =>
           (snd k,
            Some (Z.of_nat (length (filter (fun k' : Z * Q * Z => fst (fst k') =? fst (fst k))
                                           (map (Uploads.read_of now) data)))),
            Some (sum (map (fun k' : Z * Q * Z => snd (fst k'))
                           (filter (fun k' : Z * Q * Z => fst (fst k') =? fst (fst k))
                                   (map (Uploads.read_of now) data))))))
        (map (Uploads.read_of now) data).
Proof.
  rewrite derive_measures_rows, !map_map. apply map_ext. intros t.
  unfold Uploads.measure_cells, count, customer_rows. simpl.
  rewrite !filter_map_comm, !length_map, !map_map. reflexivity.
Qed.

Lemma score_reads_measures (T1 T2 : list Measured) :
  complete T1 -> complete T2 ->
  map Uploads.measure_cells T1 = map Uploads.measure_cells T2 ->
  match score T1, score T2 with
  | Ok o1, Ok o2 => map Uploads.derived_cells o1 = map Uploads.derived_cells o2
  | Raise e1, Raise e2 => e1 = e2
  | _, _ => False
  end.
Proof.
  intros C1 C2 Hcells.
  assert (HR : values (Recency_col T1) = values (Recency_col T2)).
  { apply (map_congr_on Uploads.measure_cells _ _ _ _ Hcells).
    intros d1 d2 E. injection E as E1 E2 E3. now rewrite E1. }
  assert (HF : values (Frequency_col T1) = values (Frequency_col T2)).
  { apply (map_congr_on Uploads.measure_cells _ _ _ _ Hcells).
    intros d1 d2 E. injection E as E1 E2 E3. now rewrite E2. }
  assert (HM : values (MonetaryValue_col T1) = values (MonetaryValue_col T2)).
  { apply (map_congr_on Uploads.measure_cells _ _ _ _ Hcells).
    intros d1 d2 E. injection E as E1 E2 E3. exact E3. }
  assert (Hlab : forall d1 d2, Uploads.measure_cells d1 = Uploads.measure_cells d2 ->
             Recency_label T1 d1 = Recency_label T2 d2
             /\ Frequency_label T1 d1 = Frequency_label T2 d2
             /\ MonetaryValue_label T1 d1 = MonetaryValue_label T2 d2).
  { intros d1 d2 E. injection E as E1 E2 E3.
    unfold Recency_label, Frequency_label, MonetaryValue_label,
      Recency_edges, Frequency_edges, MonetaryValue_edges.
    now rewrite HR, HF, HM, E1, E2, E3. }
  assert (Hrfm : forall d1 d2, Uploads.measure_cells d1 = Uploads.measure_cells d2 ->
             rfm_of T1 d1 = rfm_of T2 d2).
  { intros d1 d2 E. destruct (Hlab d1 d2 E) as (L1 & L2 & L3).
    unfold rfm_of. now rewrite L1, L2, L3. }
  assert (HV : map (rfm_of T1) T1 = map (rfm_of T2) T2)
    by exact (map_congr_on Uploads.measure_cells _ _ _ _ Hcells Hrfm).
  rewrite (score_outcome T1 C1), (score_outcome T2 C2).
  rewrite HR, HF, HM, HV.
  repeat match goal with
         | |- context [if ?b then _ else _] => destruct b; [reflexivity |]
         end.
  rewrite !map_map.
  apply (map_congr_on Uploads.measure_cells _ _ _ _ Hcells).
  intros d1 d2 E. destruct (Hlab d1 d2 E) as (L1 & L2 & L3).
  pose proof (Hrfm d1 d2 E) as L4. injection E as E1 E2 E3.
  unfold Uploads.derived_cells, score_row. cbn [measured RecencyScore FrequencyScore
    MonetaryScore RFM_Score Value_Segment RFM_Customer_Segments].
  now rewrite L1, L2, L3, L4, HV, E1, E2, E3.
Qed.

(** X20.  A run reads of each uploaded row only its CustomerID, its amount
    and its age in whole days: two runs whose uploads agree on these three,
    row by row, end alike - the same exception, or tables with the same
    measures, scores and segments.  OrderID values and the time of day of the
    purchases and of the run play no part. *)
Theorem run_reads_customer_amount_age (now1 now2 : Z) (data1 data2 : list Txn) :
  map (Uploads.read_of now1) data1 = map (Uploads.read_of now2) data2 ->
  Uploads.derived_outcome now1 data1 = Uploads.derived_outcome now2 data2.
Proof.
  intros Hread.
  assert (Hcells : map Uploads.measure_cells (derive_measures now1 data1)
                   = map Uploads.measure_cells (derive_measures now2 data2))
    by (rewrite !derive_measures_cells, Hread; reflexivity).
  pose proof (score_reads_measures _ _ (derive_measures_complete now1 data1)
                (derive_measures_complete now2 data2) Hcells) as H.
  unfold Uploads.derived_outcome, pipeline.
  destruct (score (derive_measures now1 data1)), (score (derive_measures now2 data2));
    try contradiction; now rewrite H.
Qed.

Lemma run_reads_customer_amount_age_witness :
  Uploads.derived_outcome Sample.now Sample.shop_a
  = Uploads.derived_outcome (Sample.now + 7200000000000) Uploads.shop_a_renumbered.
Proof.
  apply run_reads_customer_amount_age. vm_compute. reflexivity.
Defined.
